(** * design-critique-mcp: the visual heuristic analysis engine

    A shallow embedding of the four analyzers (composition, color,
    accessibility, typography) and of the score aggregator, with the
    properties the specification states about them.

    Numbers.  JavaScript numbers are IEEE doubles.  They are modelled here by
    exact arithmetic: integers ([Z]) where the source only ever holds
    integers (pixel coordinates, counters, [Math.floor] of a quotient of
    integers), rationals ([Q]) in the modules that only add, multiply,
    divide and compare, and reals ([R]) in the composition analyzer, which
    takes square roots.  A division whose divisor can be zero is modelled
    explicitly, since JavaScript then produces [NaN] (or an infinity) and
    every comparison with [NaN] is false. *)

From Stdlib Require Import ZArith List Bool String Ascii Lia.
From Stdlib Require Import QArith Qround Qabs Qminmax.
From Stdlib Require Import Reals Lra.
From Stdlib Require Lqa.
Import ListNotations.

Local Open Scope Z_scope.

(** ** Outcomes of a call: a value, an exception, or no answer at all *)

Module Outcome.

Inductive error : Type := Error (message : string).

Inductive outcome (A : Type) : Type :=
| Ret (a : A)
| Throw (e : error)
| Diverge.

Arguments Ret {A} a.
Arguments Throw {A} e.
Arguments Diverge {A}.

Definition bind {A B : Type} (m : outcome A) (k : A -> outcome B) : outcome B :=
  match m with
  | Ret a => k a
  | Throw e => Throw e
  | Diverge => Diverge
  end.

(** [try { m } catch (error) { h error }] *)
Definition try_catch {A : Type} (m : outcome A) (h : error -> outcome A) : outcome A :=
  match m with
  | Throw e => h e
  | _ => m
  end.

(** A loop that ran out of fuel has not returned. *)
Definition of_option {A : Type} (o : option A) : outcome A :=
  match o with
  | Some a => Ret a
  | None => Diverge
  end.

End Outcome.

Import Outcome.

Notation "x <- m ;; k" := (bind m (fun x => k))
  (at level 61, m at next level, right associativity).

(** ** Loops shared by the analyzers *)

Module Loops.

(** [for (let i = lo; i < hi; i++)]: the values [i] takes, in order. *)
Definition range (lo hi : Z) : list Z :=
  map (fun k => lo + Z.of_nat k) (seq 0 (Z.to_nat (hi - lo))).

(** [for (let i = start; i < stop; i += step) s = body(i, s)], with a bound
    on the number of tests of the loop condition.  [None] when the bound is
    reached: with [step = 0] and [start < stop] that is the case for every
    bound. *)
Fixpoint for_step {S : Type} (fuel : nat) (i stop step : Z)
  (body : Z -> S -> option S) (s : S) : option S :=
  match fuel with
  | O => None
  | Datatypes.S fuel' =>
      if i <? stop then
        match body i s with
        | Some s' => for_step fuel' (i + step) stop step body s'
        | None => None
        end
      else Some s
  end.

End Loops.

Import Loops.

(** ** Composition analyzer (src/analyzers/composition-analyzer.ts) *)

Module Composition.

Local Open Scope R_scope.

(** What [Jimp.intToRGBA] returns: four channel bytes. *)
Record RGBA : Type := mkRGBA { r : Z; g : Z; b : Z; a : Z }.

(** A decoded image: its dimensions and [Jimp.intToRGBA(image.getPixelColor(x, y))]. *)
Record Jimp : Type := mkJimp {
  getWidth : Z;
  getHeight : Z;
  getPixelColor : Z -> Z -> RGBA
}.

(** [image.clone().greyscale()] replaces every pixel by a grey of its own;
    the per-pixel map is Jimp's and is a parameter here. *)
Definition greyscale (grey : RGBA -> RGBA) (image : Jimp) : Jimp :=
  mkJimp (getWidth image) (getHeight image)
         (fun x y => grey (getPixelColor image x y)).

(** [(pixel.r + pixel.g + pixel.b) / 3] *)
Definition brightness (pixel : RGBA) : R :=
  (IZR (r pixel) + IZR (g pixel) + IZR (b pixel)) / 3.

Definition brightnessAt (image : Jimp) (x y : Z) : R :=
  brightness (getPixelColor image x y).

Definition Rgtb (x y : R) : bool := if Rgt_dec x y then true else false.
Definition Rltb (x y : R) : bool := if Rlt_dec x y then true else false.
Definition Rleb (x y : R) : bool := if Rle_dec x y then true else false.

(** A JavaScript number that may be [NaN]: [None] is [NaN]. *)
Definition number : Type := option R.

(** [x / y] at the places where [y] can be zero.  At each of them [x] is zero
    whenever [y] is ([x] is a sum over the same, then empty or all-zero,
    terms), so that the quotient is [NaN] and never an infinity; the one
    exception, the aspect ratio, is only compared through [Math.abs (.) < c],
    which is false for [NaN] and for an infinity alike. *)
Definition div_or_NaN (x y : R) : number :=
  if Req_dec_T y 0 then None else Some (x / y).

(** [n > c], false when [n] is [NaN] *)
Definition num_gtb (n : number) (c : R) : bool :=
  match n with Some x => Rgtb x c | None => false end.

Definition num_ltb (n : number) (c : R) : bool :=
  match n with Some x => Rltb x c | None => false end.

(** [Math.max(0, n)], which is [NaN] when [n] is *)
Definition max0 (n : number) : number :=
  match n with Some x => Some (Rmax 0 x) | None => None end.

Definition Rsum (l : list R) : R := fold_right Rplus 0 l.

(** [Math.max(...l)] and [Math.min(...l)] on a non-empty list *)
Definition Rmax_list (l : list R) : R :=
  match l with [] => 0 | x :: t => fold_left Rmax t x end.
Definition Rmin_list (l : list R) : R :=
  match l with [] => 0 | x :: t => fold_left Rmin t x end.

(** [Math.round x]: the nearest integer, halves upwards *)
Definition Math_round (x : R) : Z := Int_part (x + / 2).

(** *** Line detection *)

Definition threshold : R := 30.

Definition isEdge (center side1 side2 : R) : bool :=
  Rgtb (Rabs (center - side1)) threshold || Rgtb (Rabs (center - side2)) threshold.

Fixpoint filterCloseLines_from (last : Z) (lines : list Z) (minDistance : Z) : list Z :=
  match lines with
  | [] => []
  | x :: rest =>
      if (x - last >=? minDistance)%Z
      then x :: filterCloseLines_from x rest minDistance
      else filterCloseLines_from last rest minDistance
  end.

Definition filterCloseLines (lines : list Z) (minDistance : Z) : list Z :=
  match lines with
  | [] => []
  | x :: rest => x :: filterCloseLines_from x rest minDistance
  end.

Definition verticalEdgeCount (image : Jimp) (x : Z) : nat :=
  List.length (filter (fun y => isEdge (brightnessAt image x y)
                                  (brightnessAt image (x - 1)%Z y)
                                  (brightnessAt image (x + 1)%Z y))
                 (range 1 (getHeight image - 1)%Z)).

Definition detectVerticalLines (image : Jimp) : list Z :=
  filterCloseLines
    (filter (fun x => Rgtb (INR (verticalEdgeCount image x)) (IZR (getHeight image) * / 10))
            (range 1 (getWidth image - 1)%Z))
    20.

Definition horizontalEdgeCount (image : Jimp) (y : Z) : nat :=
  List.length (filter (fun x => isEdge (brightnessAt image x y)
                                  (brightnessAt image x (y - 1)%Z)
                                  (brightnessAt image x (y + 1)%Z))
                 (range 1 (getWidth image - 1)%Z)).

Definition detectHorizontalLines (image : Jimp) : list Z :=
  filterCloseLines
    (filter (fun y => Rgtb (INR (horizontalEdgeCount image y)) (IZR (getWidth image) * / 10))
            (range 1 (getHeight image - 1)%Z))
    20.

(** *** Grid alignment *)

Record LineSpacing : Type := mkLineSpacing { consistent : bool; averageSpacing : R }.

(** [lines[i] - lines[i - 1]] for [i] from 1 *)
Fixpoint spacingsOf (lines : list Z) : list R :=
  match lines with
  | x :: ((y :: _) as rest) => IZR (y - x) :: spacingsOf rest
  | _ => []
  end.

Definition analyzeLineSpacing (lines : list Z) (dimension : Z) : LineSpacing :=
  if (List.length lines <? 3)%nat then mkLineSpacing false 0
  else
    let spacings := spacingsOf lines in
    let n := INR (List.length spacings) in
    let averageSpacing := Rsum spacings / n in
    let variance := Rsum (map (fun s => (s - averageSpacing) ^ 2) spacings) / n in
    let standardDeviation := sqrt variance in
    mkLineSpacing ((2 <=? List.length spacings)%nat
                   && Rltb standardDeviation (averageSpacing * (3 / 10)))
                  averageSpacing.

Definition analyzeGridAlignment (grey : RGBA -> RGBA) (image : Jimp) : bool :=
  let width := getWidth image in
  let height := getHeight image in
  let edgeImage := greyscale grey image in
  let verticalLines := detectVerticalLines edgeImage in
  let horizontalLines := detectHorizontalLines edgeImage in
  let verticalSpacing := analyzeLineSpacing verticalLines width in
  let horizontalSpacing := analyzeLineSpacing horizontalLines height in
  consistent verticalSpacing && consistent horizontalSpacing.

(** *** Visual hierarchy *)

Record Region : Type := mkRegion { rx : Z; ry : Z; rwidth : Z; rheight : Z }.

(** The nine regions, row by row; [Math.floor] of a quotient of non-negative
    integers is [Z.div]. *)
Definition divideIntoRegions (image : Jimp) : list Region :=
  let width := getWidth image in
  let height := getHeight image in
  let regionWidth := (width / 3)%Z in
  let regionHeight := (height / 3)%Z in
  flat_map (fun row =>
    map (fun col => mkRegion (col * regionWidth) (row * regionHeight) regionWidth regionHeight)
        (range 0 3))
    (range 0 3).

(** The pixels a loop over a region visits:
    [for (y = region.y; y < region.y + region.height && y < height; y++)
       for (x = region.x; x < region.x + region.width && x < width; x++)] *)
Definition regionPixels (image : Jimp) (region : Region) : list (Z * Z) :=
  flat_map (fun y =>
    map (fun x => (x, y))
        (range (rx region) (Z.min (rx region + rwidth region) (getWidth image))))
    (range (ry region) (Z.min (ry region + rheight region) (getHeight image))).

Definition contrastOf (brightnesses : list R) : R :=
  match brightnesses with
  | [] => 0
  | _ => Rmax_list brightnesses - Rmin_list brightnesses
  end.

Definition calculateRegionContrast (image : Jimp) (region : Region) : R :=
  contrastOf (map (fun p => brightnessAt image (fst p) (snd p)) (regionPixels image region)).

Definition calculateRegionBrightness (image : Jimp) (region : Region) : R :=
  let pixels := regionPixels image region in
  let totalBrightness := Rsum (map (fun p => brightnessAt image (fst p) (snd p)) pixels) in
  match pixels with
  | [] => 0
  | _ => totalBrightness / INR (List.length pixels)
  end.

Record RegionAnalysis : Type := mkRegionAnalysis {
  region : Region;
  contrast : R;
  brightness_ : R
}.

(** [Array.prototype.sort] with a comparator: stable, [x] before [y] unless
    [compare x y > 0]. *)
Fixpoint insertBy {A : Type} (compare : A -> A -> R) (x : A) (l : list A) : list A :=
  match l with
  | [] => [x]
  | y :: rest =>
      if Rleb (compare x y) 0 then x :: y :: rest
      else y :: insertBy compare x rest
  end.

Definition sortBy {A : Type} (compare : A -> A -> R) (l : list A) : list A :=
  fold_right (insertBy compare) [] l.

(** [positions[4] || 'center'] *)
Definition describeRegionPosition (region : Region) : string := "center"%string.

Definition analyzeVisualHierarchy (image : Jimp) (design_type : string) : list string :=
  let regions := divideIntoRegions image in
  let regionAnalysis :=
    map (fun region => mkRegionAnalysis region
                         (calculateRegionContrast image region)
                         (calculateRegionBrightness image region)) regions in
  let sorted :=
    sortBy (fun a b => (contrast b + brightness_ b) - (contrast a + brightness_ a))
           regionAnalysis in
  let focal :=
    match sorted with
    | first :: _ =>
        if Rgtb (contrast first) 30
        then [("Strong focal point detected in " ++ describeRegionPosition (region first))%string]
        else ["Balanced composition with no dominant focal point"%string]
    | [] => ["Balanced composition with no dominant focal point"%string]
    end in
  let secondary :=
    match sorted with
    | _ :: second :: _ =>
        if Rgtb (contrast second) 20
        then [("Secondary emphasis in " ++ describeRegionPosition (region second))%string]
        else []
    | _ => []
    end in
  let observations :=
    if String.eqb design_type "web" then ["Layout follows web design conventions"%string]
    else if String.eqb design_type "mobile" then ["Vertical flow optimized for mobile viewing"%string]
    else if String.eqb design_type "print" then ["Traditional print layout hierarchy"%string]
    else [] in
  (focal ++ secondary ++ observations)%list.

(** *** Balance *)

Inductive Balance : Type := symmetric | asymmetric | radial.

Inductive Half : Type := left | right.

Definition getImageHalf (image : Jimp) (half : Half) : list R :=
  let width := getWidth image in
  let height := getHeight image in
  let halfWidth := (width / 2)%Z in
  flat_map (fun y =>
    map (fun x =>
           let sourceX := match half with left => x | right => (width - 1 - x)%Z end in
           brightnessAt image sourceX y)
        (range 0 halfWidth))
    (range 0 height).

(** [left[i] - right[i]] for [i] below the shorter length *)
Definition compareImageHalves (left right : list R) : number :=
  let differences := map (fun p => Rabs (fst p - snd p)) (combine left right) in
  let totalDifference := Rsum differences in
  let length := Nat.min (List.length left) (List.length right) in
  match div_or_NaN totalDifference (INR length) with
  | Some averageDifference => max0 (Some (1 - averageDifference / 255))
  | None => None
  end.

(** Every pixel, row by row: [for (y = 0; y < height; y++) for (x = 0; x < width; x++)] *)
Definition allPixels (image : Jimp) : list (Z * Z) :=
  flat_map (fun y => map (fun x => (x, y)) (range 0 (getWidth image)))
           (range 0 (getHeight image)).

Definition distance (centerX centerY : R) (p : Z * Z) : R :=
  let dx := IZR (fst p) - centerX in
  let dy := IZR (snd p) - centerY in
  sqrt (dx * dx + dy * dy).

(** The pixels with [distance <= maxRadius] *)
Definition withinRadius (image : Jimp) (centerX centerY maxRadius : R) : list (Z * Z) :=
  filter (fun p => Rleb (distance centerX centerY p) maxRadius) (allPixels image).

Definition calculateRadialVariance (image : Jimp) (centerX centerY maxRadius : R)
  (averageBrightness : number) : number :=
  let pixels := withinRadius image centerX centerY maxRadius in
  match pixels with
  | [] => Some 0
  | _ =>
      match averageBrightness with
      | Some average =>
          let variance :=
            Rsum (map (fun p => (brightnessAt image (fst p) (snd p) - average) ^ 2) pixels) in
          Some (variance / INR (List.length pixels))
      | None => None
      end
  end.

Definition analyzeRadialBalance (image : Jimp) : number :=
  let centerX := IZR (getWidth image) / 2 in
  let centerY := IZR (getHeight image) / 2 in
  let maxRadius := Rmin centerX centerY in
  let pixels := withinRadius image centerX centerY maxRadius in
  let weight := fun p => 1 - distance centerX centerY p / maxRadius in
  let totalWeight := Rsum (map weight pixels) in
  let weightedSum := Rsum (map (fun p => brightnessAt image (fst p) (snd p) * weight p) pixels) in
  let averageBrightness := div_or_NaN weightedSum totalWeight in
  match calculateRadialVariance image centerX centerY maxRadius averageBrightness with
  | Some variance => max0 (Some (1 - variance / 10000))
  | None => None
  end.

Definition analyzeBalance (image : Jimp) : Balance :=
  let leftHalf := getImageHalf image left in
  let rightHalf := getImageHalf image right in
  let symmetryScore := compareImageHalves leftHalf rightHalf in
  let radialScore := analyzeRadialBalance image in
  if num_gtb radialScore (7 / 10) then radial
  else if num_gtb symmetryScore (8 / 10) then symmetric
  else asymmetric.

(** *** Spacing *)

(** The window [Math.max(0, c - radius) <= . < Math.min(limit, c + radius)]
    around a centre, in both directions *)
Definition windowPixels (image : Jimp) (centerX centerY radius : Z) : list (Z * Z) :=
  flat_map (fun y =>
    map (fun x => (x, y))
        (range (Z.max 0 (centerX - radius)) (Z.min (getWidth image) (centerX + radius))))
    (range (Z.max 0 (centerY - radius)) (Z.min (getHeight image) (centerY + radius))).

Definition checkLocalSpacing (image : Jimp) (centerX centerY : Z) : bool :=
  let pixels := windowPixels image centerX centerY 20 in
  let whitePixels :=
    List.length (filter (fun p => Rgtb (brightnessAt image (fst p) (snd p)) 200) pixels) in
  let totalPixels := List.length pixels in
  let whiteSpaceRatio := div_or_NaN (INR whitePixels) (INR totalPixels) in
  num_gtb whiteSpaceRatio (3 / 10) && num_ltb whiteSpaceRatio (8 / 10).

(** The two sampling loops advance by [Math.floor(height / 10)] and
    [Math.floor(width / 10)], which are zero below ten pixels; the state is
    [(consistentSpacing, totalChecks)]. *)
Definition analyzeSpacing (fuel : nat) (image : Jimp) : option bool :=
  let width := getWidth image in
  let height := getHeight image in
  match
    for_step fuel 0 height (height / 10)%Z
      (fun y st =>
         for_step fuel 0 width (width / 10)%Z
           (fun x st' =>
              let localSpacing := checkLocalSpacing image x y in
              Some ((if localSpacing then S (fst st') else fst st'), S (snd st')))
           st)
      (O, O)
  with
  | Some (consistentSpacing, totalChecks) =>
      Some ((0 <? totalChecks)%nat
            && num_gtb (div_or_NaN (INR consistentSpacing) (INR totalChecks)) (6 / 10))
  | None => None
  end.

(** *** Alignment score *)

Definition calculateLocalContrast (image : Jimp) (centerX centerY : Z) : R :=
  contrastOf (map (fun p => brightnessAt image (fst p) (snd p))
                  (windowPixels image centerX centerY 10)).

Definition checkRuleOfThirds (image : Jimp) : Z :=
  let width := getWidth image in
  let height := getHeight image in
  (* [Math.floor] of [width / 3], [2 * width / 3], [height / 3], [2 * height / 3] *)
  let verticalThirds := [(width / 3)%Z; (2 * width / 3)%Z] in
  let horizontalThirds := [(height / 3)%Z; (2 * height / 3)%Z] in
  let alignmentScore :=
    fold_left (fun acc x =>
      fold_left (fun acc' y =>
        if Rgtb (calculateLocalContrast image x y) 50 then (acc' + 5)%Z else acc')
        horizontalThirds acc)
      verticalThirds 0%Z in
  Z.min alignmentScore 30.

Definition commonRatios : list R := [16 / 9; 4 / 3; 3 / 2; 5 / 4; 1618 / 1000].

(** The score is a sum of integers, on which [Math.round] is the identity. *)
Definition calculateAlignmentScore (image : Jimp) : Z :=
  let width := getWidth image in
  let height := getHeight image in
  let verticalLines := detectVerticalLines image in
  let horizontalLines := detectHorizontalLines image in
  let score1 := if (2 <=? List.length verticalLines)%nat then 25%Z else 0%Z in
  let score2 := if (2 <=? List.length horizontalLines)%nat then (score1 + 25)%Z else score1 in
  let aspectRatio := div_or_NaN (IZR width) (IZR height) in
  let score3 :=
    if existsb (fun ratio =>
                  match aspectRatio with
                  | Some ar => Rltb (Rabs (ar - ratio)) (1 / 10)
                  | None => false
                  end) commonRatios
    then (score2 + 20)%Z else score2 in
  let ruleOfThirdsScore := checkRuleOfThirds image in
  let score := (score3 + ruleOfThirdsScore)%Z in
  Z.max 0 (Z.min 100 score).

(** *** Overall composition score *)

Definition calculateCompositionScore (gridAlignment : bool) (balance : Balance)
  (spacingConsistency : bool) (alignmentScore : Z) : Z :=
  let score1 := if gridAlignment then 25 else 0 in
  let score2 :=
    score1 + match balance with symmetric => 25 | radial => 23 | asymmetric => 20 end in
  let score3 := if spacingConsistency then score2 + 25 else score2 in
  let score := score3 + (IZR alignmentScore / 100) * 25 in
  Math_round score.

Record LayoutAnalysis : Type := mkLayoutAnalysis {
  score : Z;
  grid_alignment : bool;
  visual_hierarchy : list string;
  balance : Balance;
  spacing_consistency : bool;
  alignment_score : Z
}.

(** The result of the [catch] branch *)
Definition defaultAnalysis : LayoutAnalysis :=
  mkLayoutAnalysis 50 false ["Unable to analyze hierarchy"%string] asymmetric false 50.

(** *** analyzeComposition

    The body of the [try] block calls, in this order, [Jimp.read] and the
    five analyses; each call returns, throws or does not come back.  The
    control flow is first given for arbitrary callees, which is what the
    failure policy is about, and then instantiated. *)

Section TryBlock.

Variable Buffer : Type.
Variable Jimp_read : Buffer -> outcome Jimp.
Variable gridAlignmentOf : Jimp -> outcome bool.
Variable visualHierarchyOf : Jimp -> string -> outcome (list string).
Variable balanceOf : Jimp -> outcome Balance.
Variable spacingOf : Jimp -> outcome bool.
Variable alignmentScoreOf : Jimp -> outcome Z.

Definition analyzeComposition_try (imageBuffer : Buffer) (design_type : string)
  : outcome LayoutAnalysis :=
  image <- Jimp_read imageBuffer ;;
  gridAlignment <- gridAlignmentOf image ;;
  visualHierarchy <- visualHierarchyOf image design_type ;;
  balance <- balanceOf image ;;
  spacingConsistency <- spacingOf image ;;
  alignmentScore <- alignmentScoreOf image ;;
  let score :=
    calculateCompositionScore gridAlignment balance spacingConsistency alignmentScore in
  Ret (mkLayoutAnalysis score gridAlignment visualHierarchy balance
                        spacingConsistency alignmentScore).

Definition analyzeComposition_with (imageBuffer : Buffer) (design_type : string)
  : outcome LayoutAnalysis :=
  try_catch (analyzeComposition_try imageBuffer design_type)
            (fun _ => Ret defaultAnalysis).

End TryBlock.

(** The analyzer itself: the five analyses above, none of which throws; only
    the spacing loops may fail to come back. *)
Definition analyzeComposition {Buffer : Type} (Jimp_read : Buffer -> outcome Jimp)
  (grey : RGBA -> RGBA) (fuel : nat) (imageBuffer : Buffer) (design_type : string)
  : outcome LayoutAnalysis :=
  analyzeComposition_with Buffer Jimp_read
    (fun image => Ret (analyzeGridAlignment grey image))
    (fun image design_type => Ret (analyzeVisualHierarchy image design_type))
    (fun image => Ret (analyzeBalance image))
    (fun image => of_option (analyzeSpacing fuel image))
    (fun image => Ret (calculateAlignmentScore image))
    imageBuffer design_type.

(** *** The 3 x 3 partition *)

(** The pixel [(x, y)] lies in the rectangle of a region. *)
Definition covers (reg : Region) (x y : Z) : bool :=
  ((rx reg <=? x) && (x <? rx reg + rwidth reg) &&
   ((ry reg <=? y) && (y <? ry reg + rheight reg)))%Z.

(** How many of the nine regions contain the pixel *)
Definition coverCount (image : Jimp) (x y : Z) : nat :=
  List.length (filter (fun reg => covers reg x y) (divideIntoRegions image)).

Definition exampleColor : RGBA := mkRGBA 0 0 0 255.

(** A raster of one colour *)
Definition solid (width height : Z) (c : RGBA) : Jimp :=
  mkJimp width height (fun _ _ => c).

Lemma range_0_3 : range 0 3 = [0; 1; 2]%Z.
Proof. reflexivity. Qed.

Lemma divideIntoRegions_eq (image : Jimp) :
  divideIntoRegions image =
  let w := (getWidth image / 3)%Z in
  let h := (getHeight image / 3)%Z in
  [ mkRegion 0 0 w h; mkRegion w 0 w h; mkRegion (2 * w) 0 w h;
    mkRegion 0 h w h; mkRegion w h w h; mkRegion (2 * w) h w h;
    mkRegion 0 (2 * h) w h; mkRegion w (2 * h) w h; mkRegion (2 * w) (2 * h) w h ].
Proof.
  unfold divideIntoRegions. rewrite range_0_3.
  cbn [flat_map map app].
  rewrite !Z.mul_0_l, !Z.mul_1_l. reflexivity.
Qed.

Example filterCloseLines_example :
  filterCloseLines [5; 10; 30; 45; 80]%Z 20 = [5; 30; 80]%Z.
Proof. reflexivity. Qed.

Example divideIntoRegions_10x10 :
  divideIntoRegions (solid 10 10 exampleColor)
  = [ mkRegion 0 0 3 3; mkRegion 3 0 3 3; mkRegion 6 0 3 3;
      mkRegion 0 3 3 3; mkRegion 3 3 3 3; mkRegion 6 3 3 3;
      mkRegion 0 6 3 3; mkRegion 3 6 3 3; mkRegion 6 6 3 3 ].
Proof. reflexivity. Qed.

Example coverCount_10x10 :
  map (fun x => coverCount (solid 10 10 exampleColor) x 4) (range 0 10)
  = [1; 1; 1; 1; 1; 1; 1; 1; 1; 0]%nat.
Proof. reflexivity. Qed.

(** One axis: which of the three consecutive intervals of length [w] holds [x] *)
Lemma thirds_cases (w x : Z) :
  (0 <= w -> 0 <= x ->
   let c0 := (0 <=? x) && (x <? 0 + w) in
   let c1 := (w <=? x) && (x <? w + w) in
   let c2 := (2 * w <=? x) && (x <? 2 * w + w) in
   if x <? 3 * w
   then (c0 = true /\ c1 = false /\ c2 = false) \/
        (c0 = false /\ c1 = true /\ c2 = false) \/
        (c0 = false /\ c1 = false /\ c2 = true)
   else c0 = false /\ c1 = false /\ c2 = false)%Z.
Proof.
  intros Hw Hx. cbv zeta.
  destruct (Z.ltb_spec x (3 * w)); 
    destruct (Z.leb_spec 0 x); destruct (Z.ltb_spec x (0 + w));
    destruct (Z.leb_spec w x); destruct (Z.ltb_spec x (w + w));
    destruct (Z.leb_spec (2 * w) x); destruct (Z.ltb_spec x (2 * w + w));
    cbn; try lia; auto.
Qed.

Lemma coverCount_eq (image : Jimp) (x y : Z) :
  (0 <= getWidth image -> 0 <= getHeight image -> 0 <= x -> 0 <= y ->
   coverCount image x y =
   if (x <? 3 * (getWidth image / 3)) && (y <? 3 * (getHeight image / 3))
   then 1%nat else 0%nat)%Z.
Proof.
  intros Hw Hh Hx Hy.
  unfold coverCount. rewrite divideIntoRegions_eq. cbv zeta.
  set (w := (getWidth image / 3)%Z). set (h := (getHeight image / 3)%Z).
  assert (Hw3 : (0 <= w)%Z) by (apply Z.div_pos; lia).
  assert (Hh3 : (0 <= h)%Z) by (apply Z.div_pos; lia).
  pose proof (thirds_cases w x Hw3 Hx) as Tx.
  pose proof (thirds_cases h y Hh3 Hy) as Ty.
  cbv zeta in Tx, Ty.
  unfold covers. cbn [filter rx ry rwidth rheight].
  destruct (x <? 3 * w)%Z; destruct (y <? 3 * h)%Z;
    repeat match goal with
           | H : _ \/ _ |- _ => destruct H
           | H : _ /\ _ |- _ => destruct H
           end;
    repeat match goal with
           | H : _ = true |- _ => rewrite H; clear H
           | H : _ = false |- _ => rewrite H; clear H
           end; reflexivity.
Qed.

(** C2 as amended: the nine regions all have the size
    [floor(width / 3)] x [floor(height / 3)]; a pixel of the raster lies in
    exactly one of them when [x < 3 * floor(width / 3)] and
    [y < 3 * floor(height / 3)], and in none otherwise, so that no two
    regions overlap and the last [width mod 3] columns and [height mod 3]
    rows are left out. *)
Theorem divideIntoRegions_partition (image : Jimp) (x y : Z) :
  (0 < getWidth image -> 0 < getHeight image ->
   0 <= x < getWidth image -> 0 <= y < getHeight image ->
   List.length (divideIntoRegions image) = 9%nat /\
   Forall (fun reg => rwidth reg = getWidth image / 3 /\
                      rheight reg = getHeight image / 3)
          (divideIntoRegions image) /\
   coverCount image x y =
     if (x <? 3 * (getWidth image / 3)) && (y <? 3 * (getHeight image / 3))
     then 1%nat else 0%nat)%Z.
Proof.
  intros Hw Hh Hx Hy. split; [|split].
  - rewrite divideIntoRegions_eq. reflexivity.
  - rewrite divideIntoRegions_eq. cbv zeta.
    repeat constructor.
  - apply coverCount_eq; lia.
Qed.

Lemma divideIntoRegions_partition_witness :
  coverCount (solid 10 10 exampleColor) 4 4 = 1%nat.
Proof.
  pose proof (divideIntoRegions_partition (solid 10 10 exampleColor) 4 4) as H.
  cbn [solid getWidth getHeight] in H.
  destruct H as (_ & _ & H); [lia | lia | lia | lia |].
  exact H.
Defined.

(** C2 as stated fails: in a 10 x 10 raster the regions are 3 x 3, and the
    pixel of column 9, row 0 lies in none of them. *)
Lemma divideIntoRegions_misses_pixel :
  let image := solid 10 10 exampleColor in
  (0 < getWidth image /\ 0 < getHeight image /\
   0 <= 9 < getWidth image /\ 0 <= 0 < getHeight image)%Z /\
  coverCount image 9 0 = 0%nat /\
  Forall (fun reg => rwidth reg = 3%Z) (divideIntoRegions image).
Proof.
  cbv zeta. split; [cbn; lia|]. split; [reflexivity|].
  rewrite divideIntoRegions_eq. cbv zeta. cbn. repeat constructor.
Qed.

(** When both dimensions are multiples of three the regions tile the raster. *)
Lemma divideIntoRegions_tiles_multiples (image : Jimp) (x y : Z) :
  (0 < getWidth image -> 0 < getHeight image ->
   getWidth image mod 3 = 0 -> getHeight image mod 3 = 0 ->
   0 <= x < getWidth image -> 0 <= y < getHeight image ->
   coverCount image x y = 1%nat)%Z.
Proof.
  intros Hw Hh Mw Mh Hx Hy.
  rewrite coverCount_eq by lia.
  pose proof (Z.div_mod (getWidth image) 3 ltac:(lia)).
  pose proof (Z.div_mod (getHeight image) 3 ltac:(lia)).
  destruct (Z.ltb_spec x (3 * (getWidth image / 3)));
    destruct (Z.ltb_spec y (3 * (getHeight image / 3))); cbn; try reflexivity; lia.
Qed.

(** *** Rasters of one colour *)

Definition uniform (image : Jimp) (c : RGBA) : Prop :=
  forall x y, (0 <= x < getWidth image)%Z -> (0 <= y < getHeight image)%Z ->
              getPixelColor image x y = c.

Lemma in_range (lo hi x : Z) : In x (range lo hi) <-> (lo <= x < hi)%Z.
Proof.
  unfold range. rewrite in_map_iff. split.
  - intros (k & <- & Hk). apply in_seq in Hk. lia.
  - intros H. exists (Z.to_nat (x - lo)). split; [lia|].
    apply in_seq. lia.
Qed.

Lemma filter_none {A : Type} (f : A -> bool) (l : list A) :
  (forall x, In x l -> f x = false) -> filter f l = [].
Proof.
  induction l as [|x l IH]; intros H; [reflexivity|].
  cbn. rewrite (H x (or_introl eq_refl)). apply IH. intros; apply H; now right.
Qed.


Lemma Rgtb_false (x y : R) : x <= y -> Rgtb x y = false.
Proof. intros H. unfold Rgtb. destruct (Rgt_dec x y); [lra | reflexivity]. Qed.

Lemma Rgtb_true (x y : R) : x > y -> Rgtb x y = true.
Proof. intros H. unfold Rgtb. destruct (Rgt_dec x y); [reflexivity | lra]. Qed.


Lemma isEdge_same (v : R) : isEdge v v v = false.
Proof.
  unfold isEdge, threshold.
  replace (v - v) with 0 by ring. rewrite Rabs_R0.
  rewrite Rgtb_false by lra. reflexivity.
Qed.



Lemma detectHorizontalLines_uniform (image : Jimp) (c : RGBA) :
  uniform image c -> (0 < getWidth image)%Z -> detectHorizontalLines image = [].
Proof.
  intros U Hw. unfold detectHorizontalLines.
  rewrite filter_none; [reflexivity|].
  intros y Hy. apply in_range in Hy.
  unfold horizontalEdgeCount. rewrite filter_none.
  - cbn. apply Rgtb_false.
    apply Rmult_le_pos; [apply IZR_le; lia | lra].
  - intros x Hx. apply in_range in Hx.
    unfold brightnessAt. rewrite !U by lia. apply isEdge_same.
Qed.





Lemma Rsum_zero (A : Type) (f : A -> R) (l : list A) :
  (forall p, In p l -> f p = 0) -> Rsum (map f l) = 0.
Proof.
  induction l as [|x l IH]; intros H; cbn; [reflexivity|].
  rewrite (H x (or_introl eq_refl)). unfold Rsum in IH. rewrite IH; [ring|].
  intros; apply H; now right.
Qed.



















(** *** The failure policy *)

Section FailurePolicy.

Variable Buffer : Type.
Variable Jimp_read : Buffer -> outcome Jimp.
Variable gridAlignmentOf : Jimp -> outcome bool.
Variable visualHierarchyOf : Jimp -> string -> outcome (list string).
Variable balanceOf : Jimp -> outcome Balance.
Variable spacingOf : Jimp -> outcome bool.
Variable alignmentScoreOf : Jimp -> outcome Z.

(** One of the calls of the [try] block throws [e], those before it having
    returned. *)
Definition exception_occurs (imageBuffer : Buffer) (design_type : string) (e : error) : Prop :=
  Jimp_read imageBuffer = Throw e \/
  exists image, Jimp_read imageBuffer = Ret image /\
    (gridAlignmentOf image = Throw e \/
     exists gridAlignment, gridAlignmentOf image = Ret gridAlignment /\
       (visualHierarchyOf image design_type = Throw e \/
        exists visualHierarchy, visualHierarchyOf image design_type = Ret visualHierarchy /\
          (balanceOf image = Throw e \/
           exists balance, balanceOf image = Ret balance /\
             (spacingOf image = Throw e \/
              exists spacingConsistency, spacingOf image = Ret spacingConsistency /\
                alignmentScoreOf image = Throw e)))).

Lemma exception_occurs_try (imageBuffer : Buffer) (design_type : string) (e : error) :
  exception_occurs imageBuffer design_type e <->
  analyzeComposition_try Buffer Jimp_read gridAlignmentOf visualHierarchyOf balanceOf
    spacingOf alignmentScoreOf imageBuffer design_type = Throw e.
Proof.
  unfold exception_occurs, analyzeComposition_try. split.
  - intros [H | (image & Hi & [H | (ga & Hg & [H | (vh & Hv & [H | (ba & Hb &
      [H | (sp & Hs & H)])])])])];
      repeat match goal with
             | E : _ = Ret _ |- _ => rewrite E; clear E; cbn [bind]
             end;
      rewrite H; reflexivity.
  - destruct (Jimp_read imageBuffer) as [image|e0|] eqn:Hi; cbn [bind];
      [| intros [= ->]; now left | discriminate].
    intros H. right. exists image. split; [reflexivity|].
    destruct (gridAlignmentOf image) as [ga|e0|]; cbn [bind] in H;
      [| injection H as ->; now left | discriminate].
    right. exists ga. split; [reflexivity|].
    destruct (visualHierarchyOf image design_type) as [vh|e0|]; cbn [bind] in H;
      [| injection H as ->; now left | discriminate].
    right. exists vh. split; [reflexivity|].
    destruct (balanceOf image) as [ba|e0|]; cbn [bind] in H;
      [| injection H as ->; now left | discriminate].
    right. exists ba. split; [reflexivity|].
    destruct (spacingOf image) as [sp|e0|]; cbn [bind] in H;
      [| injection H as ->; now left | discriminate].
    right. exists sp. split; [reflexivity|].
    destruct (alignmentScoreOf image) as [al|e0|]; cbn [bind] in H;
      [discriminate | injection H as ->; reflexivity | discriminate].
Qed.

(** C7: when a call of the analysis throws, the analyzer returns the fixed
    degraded result, and it never throws itself. *)
Theorem analyzeComposition_failure_policy (imageBuffer : Buffer) (design_type : string)
  (e : error) :
  exception_occurs imageBuffer design_type e ->
  analyzeComposition_with Buffer Jimp_read gridAlignmentOf visualHierarchyOf balanceOf
    spacingOf alignmentScoreOf imageBuffer design_type
  = Ret (mkLayoutAnalysis 50 false ["Unable to analyze hierarchy"%string]
                          asymmetric false 50) /\
  forall e', analyzeComposition_with Buffer Jimp_read gridAlignmentOf visualHierarchyOf
               balanceOf spacingOf alignmentScoreOf imageBuffer design_type <> Throw e'.
Proof.
  intros H. apply exception_occurs_try in H.
  unfold analyzeComposition_with. rewrite H. cbn [try_catch].
  split; [reflexivity | discriminate].
Qed.

End FailurePolicy.

(** The analyzer on a buffer that [Jimp.read] rejects *)
Lemma analyzeComposition_failure_policy_witness :
  analyzeComposition (fun _ : unit => Throw (Error "Could not find MIME for Buffer"))
                     (fun p => p) 0 tt "web"
  = Ret defaultAnalysis.
Proof.
  unfold analyzeComposition.
  apply (analyzeComposition_failure_policy unit
           (fun _ : unit => Throw (Error "Could not find MIME for Buffer"))
           _ _ _ _ _ tt "web" (Error "Could not find MIME for Buffer")).
  left. reflexivity.
Defined.

End Composition.

(** ** Rational arithmetic for the other analyzers *)

Module Rational.

Local Open Scope Q_scope.

Definition Qltb (x y : Q) : bool := negb (Qle_bool y x).
Definition Qleb (x y : Q) : bool := Qle_bool x y.

(** [Math.round x]: the nearest integer, halves upwards *)
Definition Math_round (x : Q) : Z := Qfloor (x + (1 # 2)).

Definition Qsum (l : list Q) : Q := fold_left Qplus l 0.

(** [Math.max(...l)] and [Math.min(...l)] on a non-empty list *)
Definition Qmax_list (l : list Q) : Q :=
  match l with [] => 0 | x :: t => fold_left Qmax t x end.
Definition Qmin_list (l : list Q) : Q :=
  match l with [] => 0 | x :: t => fold_left Qmin t x end.

Definition ofNat (n : nat) : Q := inject_Z (Z.of_nat n).

(** Unordered pairs [(l[i], l[j])], [i < j], in the order of the loops
    [for i ... for j = i + 1 ...] *)
Fixpoint pairs {A : Type} (l : list A) : list (A * A) :=
  match l with
  | [] => []
  | x :: rest => (map (fun y => (x, y)) rest ++ pairs rest)%list
  end.

(** Triples [(l[i], l[j], l[k])], [i < j < k], in loop order *)
Fixpoint triples {A : Type} (l : list A) : list (A * A * A) :=
  match l with
  | [] => []
  | x :: rest => (map (fun p => (x, fst p, snd p)) (pairs rest) ++ triples rest)%list
  end.

Lemma Qltb_lt (x y : Q) : Qltb x y = true <-> x < y.
Proof.
  unfold Qltb. rewrite negb_true_iff. split.
  - intros H. apply Qnot_le_lt. intros L. apply Qle_bool_iff in L. congruence.
  - intros H. destruct (Qle_bool y x) eqn:E; [|reflexivity].
    apply Qle_bool_iff in E. exfalso. now apply (Qlt_not_le x y).
Qed.

Lemma Qleb_le (x y : Q) : Qleb x y = true <-> x <= y.
Proof. apply Qle_bool_iff. Qed.

#[global] Instance Qltb_comp : Proper (Qeq ==> Qeq ==> eq) Qltb.
Proof.
  intros x x' Hx y y' Hy.
  destruct (Qltb x y) eqn:E; symmetry.
  - apply Qltb_lt. rewrite <- Hx, <- Hy. now apply Qltb_lt.
  - destruct (Qltb x' y') eqn:E'; [|reflexivity].
    apply Qltb_lt in E'. rewrite <- Hx, <- Hy in E'. apply Qltb_lt in E'. congruence.
Qed.

#[global] Instance Math_round_comp : Proper (Qeq ==> eq) Math_round.
Proof. intros x y H. unfold Math_round. now rewrite H. Qed.

Lemma Math_round_le (x y : Q) : x <= y -> (Math_round x <= Math_round y)%Z.
Proof.
  intros H. unfold Math_round. apply Qfloor_resp_le.
  now apply Qplus_le_l.
Qed.

End Rational.

Import Rational.

(** ** The chroma-js library, as far as the analyzers use it

    [chroma c] parses a colour and throws when it cannot; ['hsl.h'] is
    [NaN] for a grey; the luminance is the WCAG relative luminance. *)

Record Chroma : Type := mkChroma {
  color : Type;
  chroma : string -> option color;      (* [None]: [chroma(c)] throws *)
  black : color;                        (* [chroma('#000000')] *)
  hsl_h : color -> option Q;            (* [None]: [NaN] *)
  luminance : color -> Q
}.

(** ** Color analyzer (analyzers/color-analyzer.ts) *)

Module Color.

Local Open Scope Q_scope.

Section WithChroma.

Variable lib : Chroma.

Record Harmony : Type := mkHarmony { harmony_type : string; harmony_score : Z }.

(** [c.get('hsl.h') || 0] *)
Definition hueOf (c : color lib) : Q :=
  match hsl_h lib c with Some h => h | None => 0 end.

Definition isComplementary (p : Q * Q) : bool :=
  let hueDiff := Qabs (fst p - snd p) in
  Qltb 170 hueDiff && Qltb hueDiff 190.

(** [[a, b, c].sort((x, y) => x - y)] *)
Definition sort3 (a b c : Q) : Q * Q * Q :=
  let '(a, b) := if Qleb a b then (a, b) else (b, a) in
  if Qleb b c then (a, b, c)
  else if Qleb a c then (a, c, b)
  else (c, a, b).

Definition isTriadic (t : Q * Q * Q) : bool :=
  let '(h0, h1, h2) := sort3 (fst (fst t)) (snd (fst t)) (snd t) in
  let diff1 := h1 - h0 in
  let diff2 := h2 - h1 in
  let diff3 := (360 - h2) + h0 in
  Qltb (Qabs (diff1 - 120)) 30 && Qltb (Qabs (diff2 - 120)) 30
  && Qltb (Qabs (diff3 - 120)) 30.

Definition checkTriadicHarmony (hues : list Q) : Z :=
  Z.of_nat (List.length (filter isTriadic (triples hues))).

Definition analyzeColorHarmony (colors : list string) : Harmony :=
  if (List.length colors <? 2)%nat then mkHarmony "insufficient_colors" 0
  else
    let colorObjects :=
      map (fun c => match chroma lib c with Some o => o | None => black lib end) colors in
    let hues := map hueOf colorObjects in
    let complementaryScore :=
      Z.of_nat (List.length (filter isComplementary (pairs hues))) in
    let hueRange := Qmax_list hues - Qmin_list hues in
    let triadicScore := checkTriadicHarmony hues in
    if (0 <? complementaryScore)%Z
    then mkHarmony "complementary" (Z.min (85 + complementaryScore * 5) 100)
    else if (0 <? triadicScore)%Z
    then mkHarmony "triadic" (Z.min (80 + triadicScore * 5) 100)
    else if Qltb hueRange 60 then mkHarmony "analogous" 80
    else if Qltb hueRange 120 then mkHarmony "split_complementary" 70
    else mkHarmony "mixed" 60.

(** Modelled from the spec: [chroma.contrast], which is chroma-js's and not
    in the sources: "relative-luminance-based WCAG contrast formula", the
    lighter luminance plus 0.05 over the darker plus 0.05. *)
Definition chroma_contrast (a b : color lib) : Q :=
  let l1 := luminance lib a in
  let l2 := luminance lib b in
  if Qltb l2 l1 then (l1 + (5 # 100)) / (l2 + (5 # 100))
  else (l2 + (5 # 100)) / (l1 + (5 # 100)).

Definition calculateContrast (foreground background : string) : Q :=
  match chroma lib foreground with
  | Some fg =>
      match chroma lib background with
      | Some bg => chroma_contrast fg bg
      | None => 1
      end
  | None => 1
  end.

Inductive WcagLevel : Type := fail | AA | AAA.

Record Accessibility : Type := mkAccessibility {
  contrast_ratio : Q;
  wcag_aa : bool;
  wcag_aaa : bool;
  wcag_level : WcagLevel
}.

Definition checkAccessibility (foreground background : string) : Accessibility :=
  let ratio := calculateContrast foreground background in
  let wcag_aa := Qleb (45 # 10) ratio in
  let wcag_aaa := Qleb 7 ratio in
  mkAccessibility ratio wcag_aa wcag_aaa
    (if wcag_aaa then AAA else if wcag_aa then AA else fail).

(** *** What the specification says of the complementary class *)

(** The hue difference "on a 0-360 circle, using the shorter angular distance" *)
Definition circularDistance (h1 h2 : Q) : Q :=
  Qmin (Qabs (h1 - h2)) (360 - Qabs (h1 - h2)).

Definition isComplementary_spec (p : Q * Q) : bool :=
  Qltb 170 (circularDistance (fst p) (snd p))
  && Qltb (circularDistance (fst p) (snd p)) 190.

(** The hues of a palette, as the analyzer reads them *)
Definition paletteHues (colors : list string) : list Q :=
  map (fun c => hueOf (match chroma lib c with Some o => o | None => black lib end)) colors.

(** The number of unordered pairs of palette colours that are complementary
    in the sense of the specification *)
Definition pair_count (colors : list string) : Z :=
  Z.of_nat (List.length (filter isComplementary_spec (pairs (paletteHues colors)))).

End WithChroma.

Section HarmonyFacts.

Variable lib : Chroma.

Lemma isComplementary_circular (p : Q * Q) :
  isComplementary p = isComplementary_spec p.
Proof.
  unfold isComplementary, isComplementary_spec, circularDistance. cbv zeta.
  generalize (Qabs (fst p - snd p)). intros d.
  destruct (Q.min_spec d (360 - d)) as [[Hlt ->] | [Hle ->]].
  - destruct (Qltb 170 d) eqn:E1; cbn [andb]; [|reflexivity].
    apply Qltb_lt in E1.
    assert (d < 190) as H by Lqa.lra. apply Qltb_lt in H. rewrite H.
    assert (d < 190) as H' by Lqa.lra. reflexivity.
  - destruct (Qltb 170 d) eqn:E1; cbn [andb].
    + destruct (Qltb d 190) eqn:E2.
      * apply Qltb_lt in E1, E2.
        assert (170 < 360 - d) as H1 by Lqa.lra. apply Qltb_lt in H1. rewrite H1.
        assert (360 - d < 190) as H2 by Lqa.lra. apply Qltb_lt in H2. rewrite H2.
        reflexivity.
      * destruct (Qltb 170 (360 - d)) eqn:E3; [|reflexivity].
        apply Qltb_lt in E3.
        assert (d < 190) as H by Lqa.lra. apply Qltb_lt in H. congruence.
    + destruct (Qltb 170 (360 - d)) eqn:E3; [|reflexivity].
      apply Qltb_lt in E3.
      assert (170 < d) as H by Lqa.lra. apply Qltb_lt in H. congruence.
Qed.

Lemma filter_positive {A : Type} (f : A -> bool) (l : list A) :
  (0 < Z.of_nat (List.length (filter f l)))%Z <-> exists x, In x l /\ f x = true.
Proof.
  split.
  - intros H. destruct (filter f l) as [|x t] eqn:E; [cbn in H; lia|].
    exists x. apply filter_In. rewrite E. now left.
  - intros (x & Hx & Hf).
    assert (In x (filter f l)) as Hin by (apply filter_In; auto).
    destruct (filter f l); [destruct Hin | cbn; lia].
Qed.

(** The classes tried after [complementary] have other names. *)
Ltac other_class :=
  repeat match goal with
         | |- context [if ?b then _ else _] => destruct b
         end;
  cbn; discriminate.

(** C3: with at least two colours the harmony is [complementary] exactly
    when some unordered pair of palette hues lies, by the shorter way round
    the circle, strictly between 170 and 190 degrees apart, whatever the
    triadic count and the hue range are; the score is then
    [min (85 + 5 * pair_count) 100]. *)
Theorem complementary_classification (colors : list string) :
  (2 <= List.length colors)%nat ->
  (harmony_type (analyzeColorHarmony lib colors) = "complementary"%string <->
   exists p, In p (pairs (paletteHues lib colors)) /\
             170 < circularDistance (fst p) (snd p) /\
             circularDistance (fst p) (snd p) < 190) /\
  (harmony_type (analyzeColorHarmony lib colors) = "complementary"%string ->
   (0 < pair_count lib colors)%Z /\
   harmony_score (analyzeColorHarmony lib colors)
   = Z.min (85 + 5 * pair_count lib colors) 100).
Proof.
  intros Hlen.
  assert (Hex : (0 < pair_count lib colors)%Z <->
                exists p, In p (pairs (paletteHues lib colors)) /\
                          170 < circularDistance (fst p) (snd p) /\
                          circularDistance (fst p) (snd p) < 190).
  { unfold pair_count. rewrite filter_positive. split.
    - intros (p & Hp & Hf). exists p. split; [exact Hp|].
      unfold isComplementary_spec in Hf. apply andb_true_iff in Hf.
      destruct Hf as [H1 H2]. now apply Qltb_lt in H1, H2.
    - intros (p & Hp & H1 & H2). exists p. split; [exact Hp|].
      unfold isComplementary_spec. apply Qltb_lt in H1, H2. now rewrite H1, H2. }
  rewrite <- Hex.
  unfold analyzeColorHarmony.
  destruct (List.length colors <? 2)%nat eqn:E; [apply Nat.ltb_lt in E; lia|].
  cbv zeta. rewrite map_map.
  rewrite (filter_ext _ _ isComplementary_circular).
  change (Z.of_nat (List.length (filter isComplementary_spec
            (pairs (map (fun x => hueOf lib
               match chroma lib x with Some o => o | None => black lib end) colors)))))
    with (pair_count lib colors).
  destruct (Z.ltb_spec 0 (pair_count lib colors)) as [Hpos|Hneg].
  - cbn [harmony_type harmony_score]. split; [tauto|].
    intros _. split; [exact Hpos|]. f_equal. ring.
  - split; [split|].
    + intros H. exfalso. revert H. other_class.
    + lia.
    + intros H. exfalso. revert H. other_class.
Qed.

End HarmonyFacts.

Section ContrastFacts.

Variable lib : Chroma.

Lemma chroma_contrast_sym (a b : color lib) :
  chroma_contrast lib a b == chroma_contrast lib b a.
Proof.
  unfold chroma_contrast. cbv zeta.
  destruct (Qltb (luminance lib b) (luminance lib a)) eqn:E1;
    destruct (Qltb (luminance lib a) (luminance lib b)) eqn:E2.
  - apply Qltb_lt in E1, E2. exfalso. Lqa.lra.
  - reflexivity.
  - reflexivity.
  - assert (luminance lib a == luminance lib b) as H.
    { apply Qle_antisym; apply Qnot_lt_le; intros L; apply Qltb_lt in L; congruence. }
    rewrite H. reflexivity.
Qed.

(** C8: the contrast ratio of two colours does not depend on their order. *)
Theorem calculateContrast_symmetric (A B : string) :
  calculateContrast lib A B == calculateContrast lib B A.
Proof.
  unfold calculateContrast.
  destruct (chroma lib A) as [a|]; destruct (chroma lib B) as [b|]; try reflexivity.
  apply chroma_contrast_sym.
Qed.

End ContrastFacts.

(** *** A table of chroma-js values for four colours, for the examples:
    hue and relative luminance of red, cyan, black and white *)
Definition exampleChroma : Chroma :=
  mkChroma (option Q * Q)
    (fun c =>
       if String.eqb c "#ff0000" then Some (Some 0, 2126 # 10000)
       else if String.eqb c "#00ffff" then Some (Some 180, 7874 # 10000)
       else if String.eqb c "#000000" then Some (None, 0)
       else if String.eqb c "#ffffff" then Some (None, 1)
       else None)
    (None, 0)
    fst
    snd.

Example harmony_red_cyan :
  analyzeColorHarmony exampleChroma ["#ff0000"; "#00ffff"]%string
  = mkHarmony "complementary" 90.
Proof. reflexivity. Qed.

Example harmony_one_color :
  analyzeColorHarmony exampleChroma ["#ff0000"]%string
  = mkHarmony "insufficient_colors" 0.
Proof. reflexivity. Qed.

Example contrast_black_white :
  calculateContrast exampleChroma "#000000" "#ffffff" == 21 /\
  calculateContrast exampleChroma "#ffffff" "#000000" == 21 /\
  calculateContrast exampleChroma "#000000" "no such colour" == 1.
Proof. repeat split. Qed.

Lemma complementary_classification_witness :
  harmony_score (analyzeColorHarmony exampleChroma ["#ff0000"; "#00ffff"]%string)
  = Z.min (85 + 5 * pair_count exampleChroma ["#ff0000"; "#00ffff"]%string) 100.
Proof.
  destruct (complementary_classification exampleChroma ["#ff0000"; "#00ffff"]%string)
    as [_ H].
  - cbn. lia.
  - apply H. reflexivity.
Defined.

End Color.

(** ** Accessibility analyzer (src/analyzers/accessibility-analyzer.ts) *)

Module Accessibility.

Local Open Scope Q_scope.

Record ContrastCheck : Type := mkContrastCheck {
  foreground : string;
  background : string;
  ratio : Q;
  passes_aa : bool;
  passes_aaa : bool;
  location : nat * nat     (* [`Color combination ${i + 1}-${j + 1}`] *)
}.

Record ColorBlindness : Type := mkColorBlindness {
  protanopia_safe : bool;
  deuteranopia_safe : bool;
  tritanopia_safe : bool
}.

Record CombinationCheck : Type := mkCombinationCheck {
  combination_ratio : Q;
  combination_passes_aa : bool;
  combination_passes_aaa : bool;
  recommendation : string
}.

Section WithChroma.

Variable lib : Chroma.

(** [chroma.contrast(a, b)] on two strings: it builds the two colours, and
    throws when one does not parse. *)
Definition chroma_contrast_of (a b : string) : outcome Q :=
  match chroma lib a with
  | None => Throw (Error ("unknown format: " ++ a))
  | Some x =>
      match chroma lib b with
      | None => Throw (Error ("unknown format: " ++ b))
      | Some y => Ret (Color.chroma_contrast lib x y)
      end
  end.

(** All pairs [i < j] of the colours; a pair whose contrast throws is skipped. *)
Definition performContrastChecks (colors : list string) : list ContrastCheck :=
  flat_map (fun p =>
    let '((i, color1), (j, color2)) := p in
    match chroma_contrast_of color1 color2 with
    | Ret ratio =>
        [mkContrastCheck color1 color2 ratio (Qleb (45 # 10) ratio) (Qleb 7 ratio)
                         (S i, S j)]
    | _ => []
    end)
    (pairs (combine (seq 0 (List.length colors)) colors)).

Definition checkColorCombination (foreground background : string)
  : outcome CombinationCheck :=
  try_catch
    (ratio <- chroma_contrast_of foreground background ;;
     let passes_aa := Qleb (45 # 10) ratio in
     let passes_aaa := Qleb 7 ratio in
     let recommendation :=
       if negb passes_aa
       then "Increase contrast significantly - fails WCAG AA standards"%string
       else if negb passes_aaa
       then "Good contrast for AA, consider increasing for AAA standards"%string
       else "Excellent contrast - meets all WCAG standards"%string in
     Ret (mkCombinationCheck ratio passes_aa passes_aaa recommendation))
    (fun _ => Ret (mkCombinationCheck 0 false false "Invalid color combination")).

End WithChroma.

(** [contrastChecks.filter(check => check.passes_aa).length / contrastChecks.length] *)
Definition aaPassingRate (contrastChecks : list ContrastCheck) : Q :=
  ofNat (List.length (filter passes_aa contrastChecks)) / ofNat (List.length contrastChecks).

Definition aaaPassingRate (contrastChecks : list ContrastCheck) : Q :=
  ofNat (List.length (filter passes_aaa contrastChecks)) / ofNat (List.length contrastChecks).

(** [contrastChecks.reduce((sum, check) => sum + check.ratio, 0) / contrastChecks.length] *)
Definition averageRatio (contrastChecks : list ContrastCheck) : Q :=
  Qsum (map ratio contrastChecks) / ofNat (List.length contrastChecks).

Definition calculateAccessibilityScore (contrastChecks : list ContrastCheck)
  (colorBlindnessAnalysis : ColorBlindness) : Z :=
  let score0 := 0 in
  let score1 :=
    if (0 <? List.length contrastChecks)%nat
    then score0 + aaPassingRate contrastChecks * 25 + aaaPassingRate contrastChecks * 15
    else score0 in
  let colorBlindnessScore :=
    ofNat (List.length (filter (fun b : bool => b)
                          [protanopia_safe colorBlindnessAnalysis;
                           deuteranopia_safe colorBlindnessAnalysis;
                           tritanopia_safe colorBlindnessAnalysis])) in
  let score2 := score1 + (colorBlindnessScore / 3) * 30 in
  let score3 :=
    if (0 <? List.length contrastChecks)%nat
    then
      if Qltb 10 (averageRatio contrastChecks) then score2 + 10
      else if Qltb 7 (averageRatio contrastChecks) then score2 + 5
      else score2
    else score2 in
  Math_round (Qmin score3 100).

(** *** The score as the specification words it *)

Definition points (b : bool) : Q := if b then 10 else 0.

Definition bonus (contrastChecks : list ContrastCheck) : Q :=
  match contrastChecks with
  | [] => 0
  | _ => if Qltb 10 (averageRatio contrastChecks) then 10
         else if Qltb 7 (averageRatio contrastChecks) then 5
         else 0
  end.

Definition pairFraction (passes : ContrastCheck -> bool)
  (contrastChecks : list ContrastCheck) : Q :=
  match contrastChecks with
  | [] => 0
  | _ => ofNat (List.length (filter passes contrastChecks))
         / ofNat (List.length contrastChecks)
  end.

Definition scoreSum (contrastChecks : list ContrastCheck) (cb : ColorBlindness) : Q :=
  25 * pairFraction passes_aa contrastChecks
  + 15 * pairFraction passes_aaa contrastChecks
  + points (protanopia_safe cb) + points (deuteranopia_safe cb)
  + points (tritanopia_safe cb)
  + bonus contrastChecks.


Lemma colorBlindness_points (cb : ColorBlindness) :
  (ofNat (List.length (filter (fun b : bool => b)
             [protanopia_safe cb; deuteranopia_safe cb; tritanopia_safe cb])) / 3) * 30
  == points (protanopia_safe cb) + points (deuteranopia_safe cb)
     + points (tritanopia_safe cb).
Proof.
  destruct (protanopia_safe cb), (deuteranopia_safe cb), (tritanopia_safe cb);
    reflexivity.
Qed.

Lemma calculateAccessibilityScore_sum (contrastChecks : list ContrastCheck)
  (cb : ColorBlindness) :
  calculateAccessibilityScore contrastChecks cb
  = Math_round (Qmin (scoreSum contrastChecks cb) 100).
Proof.
  unfold calculateAccessibilityScore, scoreSum. cbv zeta.
  apply Math_round_comp. apply Q.min_compat; [|reflexivity].
  pose proof (colorBlindness_points cb) as Hcb.
  destruct contrastChecks as [|c rest].
  - cbn [List.length Nat.ltb Nat.leb bonus pairFraction].
    rewrite Hcb. ring.
  - change (0 <? List.length (c :: rest))%nat with true. cbv iota.
    unfold bonus, pairFraction.
    fold (aaPassingRate (c :: rest)). fold (aaaPassingRate (c :: rest)).
    destruct (Qltb 10 (averageRatio (c :: rest)));
      [|destruct (Qltb 7 (averageRatio (c :: rest)))]; rewrite Hcb; ring.
Qed.


Lemma pairFraction_rate (passes : ContrastCheck -> bool) (c : ContrastCheck)
  (rest : list ContrastCheck) :
  pairFraction passes (c :: rest)
  = ofNat (List.length (filter passes (c :: rest))) / ofNat (List.length (c :: rest)).
Proof. reflexivity. Qed.

(** C6: with the same number of pairs, the same colour-blindness flags, the
    same AAA rate and the same mean ratio, a higher AA rate never gives a
    lower score. *)
Theorem calculateAccessibilityScore_monotone (checks1 checks2 : list ContrastCheck)
  (cb : ColorBlindness) :
  List.length checks1 = List.length checks2 ->
  aaaPassingRate checks1 == aaaPassingRate checks2 ->
  averageRatio checks1 == averageRatio checks2 ->
  aaPassingRate checks1 <= aaPassingRate checks2 ->
  (calculateAccessibilityScore checks1 cb <= calculateAccessibilityScore checks2 cb)%Z.
Proof.
  intros Hlen Haaa Havg Haa.
  rewrite !calculateAccessibilityScore_sum.
  apply Math_round_le. apply Q.min_le_compat_r.
  unfold scoreSum.
  destruct checks1 as [|c1 rest1]; destruct checks2 as [|c2 rest2];
    try discriminate Hlen.
  - apply Qle_refl.
  - rewrite !pairFraction_rate.
    fold (aaPassingRate (c1 :: rest1)) (aaPassingRate (c2 :: rest2)).
    fold (aaaPassingRate (c1 :: rest1)) (aaaPassingRate (c2 :: rest2)).
    assert (Hb : bonus (c1 :: rest1) == bonus (c2 :: rest2)).
    { unfold bonus.
      rewrite (Qltb_comp _ _ (Qeq_refl 10) _ _ Havg).
      rewrite (Qltb_comp _ _ (Qeq_refl 7) _ _ Havg). reflexivity. }
    rewrite Hb, Haaa.
    generalize dependent (aaPassingRate (c1 :: rest1)).
    generalize (aaPassingRate (c2 :: rest2)) (aaaPassingRate (c2 :: rest2))
               (bonus (c2 :: rest2)) (points (protanopia_safe cb))
               (points (deuteranopia_safe cb)) (points (tritanopia_safe cb)).
    intros a2 a3 bo p d t a1 H. Lqa.lra.
Qed.

Definition exampleCheck (ratio : Q) : ContrastCheck :=
  mkContrastCheck "#000000" "#ffffff" ratio (Qleb (45 # 10) ratio) (Qleb 7 ratio)
                  (1%nat, 2%nat).

Example score_all_passing :
  calculateAccessibilityScore [exampleCheck 21] (mkColorBlindness true true true) = 80%Z.
Proof. reflexivity. Qed.

Example score_no_checks :
  calculateAccessibilityScore [] (mkColorBlindness true false true) = 20%Z.
Proof. reflexivity. Qed.

Example score_half_passing :
  calculateAccessibilityScore [exampleCheck 5; exampleCheck 2]
    (mkColorBlindness false false true) = 23%Z.
Proof. reflexivity. Qed.

(** Two lists of two pairs with mean ratio 5 and no AAA pass: one and two AA passes. *)
Lemma calculateAccessibilityScore_monotone_witness :
  (calculateAccessibilityScore [exampleCheck 6; exampleCheck 4]
     (mkColorBlindness true true false)
   <= calculateAccessibilityScore [exampleCheck 5; exampleCheck 5]
        (mkColorBlindness true true false))%Z.
Proof.
  apply calculateAccessibilityScore_monotone.
  - reflexivity.
  - reflexivity.
  - reflexivity.
  - discriminate.
Defined.

Section CombinationFacts.

Variable lib : Chroma.

(** C10: the check of a colour combination always returns; when one of the
    two colours does not parse it returns ratio 0 with both flags false,
    where [calculateContrast] of the color analyzer gives ratio 1. *)
Theorem checkColorCombination_never_throws (foreground background : string) :
  (exists result, checkColorCombination lib foreground background = Ret result) /\
  (chroma lib foreground = None \/ chroma lib background = None ->
   checkColorCombination lib foreground background
   = Ret (mkCombinationCheck 0 false false "Invalid color combination") /\
   Color.calculateContrast lib foreground background = 1).
Proof.
  unfold checkColorCombination, chroma_contrast_of, Color.calculateContrast.
  destruct (chroma lib foreground) as [fg|]; destruct (chroma lib background) as [bg|];
    cbn [bind try_catch]; (split; [eexists; reflexivity|]).
  - intros [H | H]; discriminate H.
  - intros _. split; reflexivity.
  - intros _. split; reflexivity.
  - intros _. split; reflexivity.
Qed.

End CombinationFacts.

Example combination_black_white :
  checkColorCombination Color.exampleChroma "#000000" "#ffffff"
  = Ret (mkCombinationCheck ((1 + (5 # 100)) / (0 + (5 # 100))) true true
           "Excellent contrast - meets all WCAG standards").
Proof. reflexivity. Qed.

Lemma checkColorCombination_never_throws_witness :
  checkColorCombination Color.exampleChroma "#000000" "not a colour"
  = Ret (mkCombinationCheck 0 false false "Invalid color combination") /\
  Color.calculateContrast Color.exampleChroma "#000000" "not a colour" = 1.
Proof.
  apply (checkColorCombination_never_throws Color.exampleChroma "#000000" "not a colour").
  right. reflexivity.
Defined.

End Accessibility.

(** ** Typography analyzer (analyzers/typography-analyzer.ts) *)

Module Typography.

Local Open Scope Q_scope.

Record TextRegion : Type := mkTextRegion {
  text : string;
  x : Q;
  y : Q;
  width : Q;
  height : Q;
  confidence : Q
}.

Record TypographyAnalysis : Type := mkTypographyAnalysis {
  font_count : Z;
  hierarchy_score : Z;
  readability_score : Z;
  issues : list string;
  text_regions : list TextRegion
}.

(** What [Tesseract.recognize] yields, as far as it is read *)
Record Bbox : Type := mkBbox { x0 : Q; y0 : Q; x1 : Q; y1 : Q }.
Record Word : Type := mkWord { word_text : string; bbox : Bbox; word_confidence : Q }.
Record OcrData : Type := mkOcrData { words : option (list Word) }.

(** A JavaScript [Map] with number keys, in insertion order *)
Fixpoint map_get {V : Type} (k : Z) (m : list (Z * V)) : option V :=
  match m with
  | [] => None
  | (k', v) :: rest => if (k =? k')%Z then Some v else map_get k rest
  end.

Fixpoint map_set {V : Type} (k : Z) (v : V) (m : list (Z * V)) : list (Z * V) :=
  match m with
  | [] => [(k, v)]
  | (k', v') :: rest =>
      if (k =? k')%Z then (k, v) :: rest else (k', v') :: map_set k v rest
  end.

(** [[...new Set(l)]]: the first occurrence of each value, in order *)
Fixpoint unique_from (seen : list Z) (l : list Z) : list Z :=
  match l with
  | [] => []
  | z :: rest =>
      if existsb (Z.eqb z) seen then unique_from seen rest
      else z :: unique_from (z :: seen) rest
  end.

Definition unique (l : list Z) : list Z := unique_from [] l.

(** [Array.prototype.sort] with a comparator: stable, [a] before [b] unless
    [compare a b > 0]. *)
Fixpoint insertBy {A : Type} (compare : A -> A -> Q) (a : A) (l : list A) : list A :=
  match l with
  | [] => [a]
  | b :: rest =>
      if Qleb (compare a b) 0 then a :: b :: rest
      else b :: insertBy compare a rest
  end.

Definition sortBy {A : Type} (compare : A -> A -> Q) (l : list A) : list A :=
  fold_right (insertBy compare) [] l.

(** A quotient whose divisor may be zero *)
Inductive number : Type :=
| Finite (q : Q)
| NaN
| PositiveInfinity
| NegativeInfinity.

Definition divide (a b : Q) : number :=
  if Qeq_bool b 0 then
    if Qeq_bool a 0 then NaN
    else if Qltb 0 a then PositiveInfinity else NegativeInfinity
  else Finite (a / b).

(** [n < c] *)
Definition less (n : number) (c : Q) : bool :=
  match n with
  | Finite q => Qltb q c
  | NegativeInfinity => true
  | NaN | PositiveInfinity => false
  end.

Definition extractTextRegions (ocrData : OcrData) : list TextRegion :=
  match words ocrData with
  | Some ws =>
      map (fun word =>
             mkTextRegion (word_text word) (x0 (bbox word)) (y0 (bbox word))
                          (x1 (bbox word) - x0 (bbox word))
                          (y1 (bbox word) - y0 (bbox word))
                          (word_confidence word))
          (filter (fun word => Qltb 30 (word_confidence word)) ws)
  | None => []
  end.

Definition estimateFontCount (textRegions : list TextRegion) : Z :=
  match textRegions with
  | [] => 0%Z
  | _ =>
      let heightGroups :=
        fold_left (fun (groups : list (Z * Z)) region =>
                     let roundedHeight := (Math_round (height region / 5) * 5)%Z in
                     let count :=
                       match map_get roundedHeight groups with
                       | Some n => n
                       | None => 0%Z
                       end in
                     map_set roundedHeight (count + 1)%Z groups)
                  textRegions [] in
      let distinctHeights := filter (fun h => (8 <? h)%Z) (map fst heightGroups) in
      Z.max 1 (Z.min (Z.of_nat (List.length distinctHeights)) 4)
  end.

(** [uniqueSizes[i] - uniqueSizes[i + 1]] *)
Fixpoint differences (l : list Z) : list Z :=
  match l with
  | a :: ((b :: _) as rest) => (a - b)%Z :: differences rest
  | _ => []
  end.

Definition analyzeHierarchy (textRegions : list TextRegion) : Z :=
  match textRegions with
  | [] => 0%Z
  | _ =>
      let sortedRegions := sortBy (fun a b => height b - height a) textRegions in
      let sizes := map height sortedRegions in
      let uniqueSizes := unique (map (fun size => (Math_round (size / 2) * 2)%Z) sizes) in
      let n := List.length uniqueSizes in
      let score1 := if (2 <=? n)%nat then 30%Z else 0%Z in
      let score2 := if (3 <=? n)%nat then (score1 + 20)%Z else score1 in
      let score3 := if (4 <=? n)%nat then (score2 + 10)%Z else score2 in
      let sizeDifferences := differences uniqueSizes in
      let consistentProgression := forallb (fun diff => (2 <=? diff)%Z) sizeDifferences in
      let score4 := if consistentProgression then (score3 + 20)%Z else score3 in
      let largestSize := Qmax_list sizes in
      let largestTextCount :=
        List.length (filter (fun size => Qeq_bool size largestSize) sizes) in
      let totalTextCount := List.length sizes in
      let score5 :=
        if Qltb (ofNat largestTextCount / ofNat totalTextCount) (3 # 10)
        then (score4 + 20)%Z else score4 in
      Z.min score5 100
  end.

Definition calculateTextDensity (textRegions : list TextRegion) : number :=
  match textRegions with
  | [] => Finite 0
  | _ =>
      let totalTextArea := Qsum (map (fun r => width r * height r) textRegions) in
      let minX := Qmin_list (map x textRegions) in
      let maxX := Qmax_list (map (fun r => x r + width r) textRegions) in
      let minY := Qmin_list (map y textRegions) in
      let maxY := Qmax_list (map (fun r => y r + height r) textRegions) in
      let boundingBoxArea := (maxX - minX) * (maxY - minY) in
      divide totalTextArea boundingBoxArea
  end.

Definition calculateLineLengths (textRegions : list TextRegion) : list Q :=
  let lines :=
    fold_left (fun (lines : list (Z * list TextRegion)) region =>
                 let lineY := (Math_round (y region / 5) * 5)%Z in
                 match map_get lineY lines with
                 | Some lineRegions => map_set lineY (lineRegions ++ [region])%list lines
                 | None => map_set lineY [region] lines
                 end)
              textRegions [] in
  map (fun line => Qsum (map (fun region => ofNat (String.length (text region))) (snd line)))
      lines.

Definition analyzeReadability (textRegions : list TextRegion) : Z :=
  match textRegions with
  | [] => 0%Z
  | _ =>
      let n := ofNat (List.length textRegions) in
      let averageHeight := Qsum (map height textRegions) / n in
      let score1 :=
        if Qleb 12 averageHeight then 25%Z
        else if Qleb 10 averageHeight then 15%Z
        else if Qleb 8 averageHeight then 10%Z
        else 0%Z in
      let textDensity := calculateTextDensity textRegions in
      let score2 :=
        if less textDensity (7 # 10) then (score1 + 25)%Z
        else if less textDensity (85 # 100) then (score1 + 15)%Z
        else score1 in
      let averageConfidence := Qsum (map confidence textRegions) / n in
      let score3 :=
        if Qleb 80 averageConfidence then (score2 + 25)%Z
        else if Qleb 60 averageConfidence then (score2 + 15)%Z
        else if Qleb 40 averageConfidence then (score2 + 10)%Z
        else score2 in
      let lineLengths := calculateLineLengths textRegions in
      let averageLineLength := Qsum lineLengths / ofNat (List.length lineLengths) in
      let score4 :=
        if Qleb 30 averageLineLength && Qleb averageLineLength 75 then (score3 + 25)%Z
        else if Qleb 20 averageLineLength && Qleb averageLineLength 90 then (score3 + 15)%Z
        else score3 in
      Z.min score4 100
  end.

Definition identifyIssues (textRegions : list TextRegion)
  (fontCount hierarchyScore readabilityScore : Z) : list string :=
  ((if (3 <? fontCount)%Z
    then ["Too many different font sizes detected - consider reducing for better consistency"%string]
    else []) ++
   (if (hierarchyScore <? 50)%Z
    then ["Weak typographic hierarchy - consider creating clearer size distinctions"%string]
    else []) ++
   (if (readabilityScore <? 60)%Z
    then ["Text readability could be improved - check font size and contrast"%string]
    else []) ++
   (let smallText := filter (fun region => Qltb (height region) 8) textRegions in
    if (0 <? List.length smallText)%nat
    then ["Some text appears too small for comfortable reading"%string]
    else []) ++
   (let lowConfidenceText := filter (fun region => Qltb (confidence region) 40) textRegions in
    if Qltb (ofNat (List.length textRegions) * (2 # 10))
            (ofNat (List.length lowConfidenceText))
    then ["Some text appears unclear or hard to read"%string]
    else []))%list.

(** The [try] block of [analyzeTypography] once the text regions are there *)
Definition analyzeTextRegions (textRegions : list TextRegion) : TypographyAnalysis :=
  let fontCount := estimateFontCount textRegions in
  let hierarchyScore := analyzeHierarchy textRegions in
  let readabilityScore := analyzeReadability textRegions in
  let issues := identifyIssues textRegions fontCount hierarchyScore readabilityScore in
  mkTypographyAnalysis fontCount hierarchyScore readabilityScore issues textRegions.

Definition analyzeTypography {Buffer : Type} (recognize : Buffer -> outcome OcrData)
  (imageBuffer : Buffer) : outcome TypographyAnalysis :=
  try_catch
    (data <- recognize imageBuffer ;;
     Ret (analyzeTextRegions (extractTextRegions data)))
    (fun _ => Ret (mkTypographyAnalysis 2 70 75
                     ["Unable to perform detailed typography analysis"%string] [])).

Definition exampleRegion (t : string) (y h : Q) : TextRegion :=
  mkTextRegion t 0 y 100 h 90.

Example hierarchy_two_sizes :
  analyzeHierarchy [exampleRegion "Title" 0 40; exampleRegion "body" 100 12] = 50%Z.
Proof. reflexivity. Qed.

Example font_count_two_sizes :
  estimateFontCount [exampleRegion "Title" 0 40; exampleRegion "body" 100 12] = 2%Z.
Proof. reflexivity. Qed.

Example readability_two_sizes :
  analyzeReadability [exampleRegion "Title" 0 40; exampleRegion "body" 100 12] = 75%Z.
Proof. reflexivity. Qed.

(** C9: on an empty list of text boxes the three measures are 0, and so
    are the fields of the result when the recognition finds no usable word. *)
Theorem typography_empty :
  estimateFontCount [] = 0%Z /\
  analyzeHierarchy [] = 0%Z /\
  analyzeReadability [] = 0%Z /\
  forall (Buffer : Type) (recognize : Buffer -> outcome OcrData) (imageBuffer : Buffer)
         (data : OcrData),
    recognize imageBuffer = Ret data ->
    extractTextRegions data = [] ->
    exists result,
      analyzeTypography recognize imageBuffer = Ret result /\
      font_count result = 0%Z /\
      hierarchy_score result = 0%Z /\
      readability_score result = 0%Z.
Proof.
  repeat split.
  intros Buffer recognize imageBuffer data Hdata Hregions.
  unfold analyzeTypography. rewrite Hdata. cbn [bind try_catch]. rewrite Hregions.
  eexists. split; [reflexivity|]. repeat split.
Qed.

(** A recognition whose only word has confidence 12 *)
Lemma typography_empty_witness :
  exists result,
    analyzeTypography
      (fun _ : unit => Ret (mkOcrData (Some [mkWord "l" (mkBbox 0 0 3 9) 12]))) tt
    = Ret result /\
    font_count result = 0%Z /\
    hierarchy_score result = 0%Z /\
    readability_score result = 0%Z.
Proof.
  destruct typography_empty as (_ & _ & _ & H).
  apply (H unit _ tt (mkOcrData (Some [mkWord "l" (mkBbox 0 0 3 9) 12]))).
  - reflexivity.
  - reflexivity.
Defined.

End Typography.

(** ** Score aggregator (tools/design-analysis/index.ts) *)

Module Aggregator.

Local Open Scope Q_scope.

Record Scores : Type := mkScores {
  color_score : Q;          (* [color] *)
  composition : Q;
  typography : Q;
  accessibility : Q
}.

(** [Object.entries(scores)], in the order the object literal is written *)
Definition entries (scores : Scores) : list (string * Q) :=
  [("color"%string, color_score scores);
   ("composition"%string, composition scores);
   ("typography"%string, typography scores);
   ("accessibility"%string, accessibility scores)].

Definition weights : list (string * Q) :=
  [("color"%string, 25 # 100);
   ("composition"%string, 30 # 100);
   ("typography"%string, 25 # 100);
   ("accessibility"%string, 20 # 100)].

(** [weights[category]]: [None] is [undefined] *)
Fixpoint lookup (category : string) (table : list (string * Q)) : option Q :=
  match table with
  | [] => None
  | (k, v) :: rest => if String.eqb category k then Some v else lookup category rest
  end.

(** [None] is [NaN], which a product with [undefined] would be. *)
Definition calculateOverallScore (scores : Scores) : option Z :=
  let totalScore :=
    fold_left (fun (totalScore : option Q) entry =>
                 match totalScore, lookup (fst entry) weights with
                 | Some total, Some weight => Some (total + snd entry * weight)
                 | _, _ => None
                 end)
              (entries scores) (Some 0) in
  match totalScore with
  | Some total => Some (Math_round total)
  | None => None
  end.

Example overall_example :
  calculateOverallScore (mkScores 90 73 50 80) = Some 73%Z.
Proof. reflexivity. Qed.


End Aggregator.

(** ** Further properties of the composition analyzer *)

Module CompositionFacts.

Import Composition.

Local Open Scope R_scope.

(** Consecutive members of a list of line positions are at least [d] apart. *)
Fixpoint gapsAtLeast (d : Z) (l : list Z) : Prop :=
  match l with
  | a :: ((b :: _) as rest) => (b - a >= d)%Z /\ gapsAtLeast d rest
  | _ => True
  end.

Lemma filterCloseLines_from_gaps (d : Z) (lines : list Z) :
  forall last, gapsAtLeast d (last :: filterCloseLines_from last lines d).
Proof.
  induction lines as [|x rest IH]; intros last; [exact I|].
  cbn [filterCloseLines_from].
  destruct (Z.geb_spec (x - last) d) as [Hge|Hlt].
  - split; [lia | apply IH].
  - apply IH.
Qed.

Lemma filterCloseLines_from_In (d : Z) (lines : list Z) :
  forall last x, In x (filterCloseLines_from last lines d) -> In x lines.
Proof.
  induction lines as [|y rest IH]; intros last x Hx; [exact Hx|].
  cbn [filterCloseLines_from] in Hx.
  destruct (y - last >=? d)%Z.
  - destruct Hx as [-> | Hx]; [now left | right; eapply IH; eassumption].
  - right. eapply IH; eassumption.
Qed.

Lemma filterCloseLines_gaps (d : Z) (lines : list Z) :
  gapsAtLeast d (filterCloseLines lines d).
Proof.
  destruct lines as [|x rest]; [exact I|]. apply filterCloseLines_from_gaps.
Qed.

Lemma filterCloseLines_In (d : Z) (lines : list Z) (x : Z) :
  In x (filterCloseLines lines d) -> In x lines.
Proof.
  destruct lines as [|y rest]; [intros []|].
  intros [-> | Hx]; [now left | right; eapply filterCloseLines_from_In; eassumption].
Qed.

(** X1: the vertical lines reported are interior columns whose edge count
    exceeds a tenth of the height, and two consecutive ones are at least 20
    pixels apart. *)
Theorem detectVerticalLines_sound (image : Jimp) :
  gapsAtLeast 20 (detectVerticalLines image) /\
  forall x, In x (detectVerticalLines image) ->
    (1 <= x < getWidth image - 1)%Z /\
    INR (verticalEdgeCount image x) > IZR (getHeight image) * / 10.
Proof.
  split; [apply filterCloseLines_gaps|].
  intros x Hx. unfold detectVerticalLines in Hx.
  apply filterCloseLines_In in Hx. apply filter_In in Hx. destruct Hx as [Hr Hc].
  apply in_range in Hr. split; [exact Hr|].
  unfold Rgtb in Hc. destruct (Rgt_dec _ _); [assumption | discriminate].
Qed.

(** X2: the same for the horizontal lines, rows and width exchanged. *)
Theorem detectHorizontalLines_sound (image : Jimp) :
  gapsAtLeast 20 (detectHorizontalLines image) /\
  forall y, In y (detectHorizontalLines image) ->
    (1 <= y < getHeight image - 1)%Z /\
    INR (horizontalEdgeCount image y) > IZR (getWidth image) * / 10.
Proof.
  split; [apply filterCloseLines_gaps|].
  intros y Hy. unfold detectHorizontalLines in Hy.
  apply filterCloseLines_In in Hy. apply filter_In in Hy. destruct Hy as [Hr Hc].
  apply in_range in Hr. split; [exact Hr|].
  unfold Rgtb in Hc. destruct (Rgt_dec _ _); [assumption | discriminate].
Qed.

(** [n] lines starting at [a], [d] apart *)
Definition evenlySpaced (a d : Z) (n : nat) : list Z :=
  map (fun k => (a + d * Z.of_nat k)%Z) (seq 0 n).

Lemma evenlySpaced_S (a d : Z) (n : nat) :
  evenlySpaced a d (S n) = a :: evenlySpaced (a + d) d n.
Proof.
  unfold evenlySpaced. cbn [seq map]. f_equal; [lia|].
  rewrite <- seq_shift, map_map. apply map_ext. intros k. lia.
Qed.

Lemma spacingsOf_evenlySpaced (d : Z) (n : nat) :
  forall a, spacingsOf (evenlySpaced a d (S n)) = repeat (IZR d) n.
Proof.
  induction n as [|n IH]; intros a; [reflexivity|].
  rewrite evenlySpaced_S. specialize (IH (a + d)%Z).
  destruct (evenlySpaced (a + d) d (S n)) as [|b rest] eqn:E;
    [rewrite evenlySpaced_S in E; discriminate|].
  assert (b = (a + d)%Z) as -> by (rewrite evenlySpaced_S in E; congruence).
  change (spacingsOf (a :: (a + d)%Z :: rest))
    with (IZR (a + d - a) :: spacingsOf ((a + d)%Z :: rest)).
  rewrite IH. cbn [repeat]. f_equal. f_equal. lia.
Qed.

Lemma Rsum_repeat (c : R) (n : nat) : Rsum (repeat c n) = INR n * c.
Proof.
  induction n as [|n IH]; [cbn; ring|].
  rewrite S_INR. cbn [repeat]. unfold Rsum in *. cbn [fold_right]. rewrite IH. ring.
Qed.

(** X3: three or more lines at equal positive distances are a consistent
    spacing, and the average spacing reported is that distance. *)
Theorem analyzeLineSpacing_evenlySpaced (a d : Z) (n : nat) (dimension : Z) :
  (3 <= n)%nat -> (0 < d)%Z ->
  analyzeLineSpacing (evenlySpaced a d n) dimension = mkLineSpacing true (IZR d).
Proof.
  intros Hn Hd. destruct n as [|m]; [lia|].
  unfold analyzeLineSpacing.
  assert (Hlen : List.length (evenlySpaced a d (S m)) = S m).
  { unfold evenlySpaced. now rewrite length_map, length_seq. }
  rewrite Hlen. destruct (Nat.ltb_spec (S m) 3); [lia|].
  cbv zeta. rewrite spacingsOf_evenlySpaced, repeat_length, Rsum_repeat.
  assert (Hm : INR m <> 0) by (apply not_0_INR; lia).
  assert (Havg : INR m * IZR d / INR m = IZR d) by (field; exact Hm).
  rewrite Havg.
  assert (Hvar : Rsum (map (fun s => (s - IZR d) ^ 2) (repeat (IZR d) m)) = 0).
  { apply Rsum_zero. intros s Hs. apply repeat_spec in Hs. subst. ring. }
  rewrite Hvar.
  replace (0 / INR m) with 0 by (unfold Rdiv; ring).
  rewrite sqrt_0.
  destruct (Nat.leb_spec 2 m); [|lia]. cbn [andb].
  assert (0 < IZR d) by (apply IZR_lt; exact Hd).
  unfold Rltb. destruct (Rlt_dec 0 (IZR d * (3 / 10))); [reflexivity | lra].
Qed.

Lemma analyzeLineSpacing_evenlySpaced_witness :
  analyzeLineSpacing (evenlySpaced 10 40 4) 200 = mkLineSpacing true (IZR 40).
Proof.
  apply analyzeLineSpacing_evenlySpaced.
  - lia.
  - lia.
Defined.

(** X4: with fewer than three lines on either axis there is no grid alignment. *)
Theorem analyzeGridAlignment_few_lines (grey : RGBA -> RGBA) (image : Jimp) :
  (List.length (detectVerticalLines (greyscale grey image)) < 3)%nat \/
  (List.length (detectHorizontalLines (greyscale grey image)) < 3)%nat ->
  analyzeGridAlignment grey image = false.
Proof.
  intros H. unfold analyzeGridAlignment, analyzeLineSpacing. cbv zeta.
  destruct H as [H | H]; apply Nat.ltb_lt in H; rewrite H.
  - reflexivity.
  - apply andb_false_r.
Qed.

Lemma analyzeGridAlignment_few_lines_witness :
  analyzeGridAlignment (fun p => p) (solid 2 2 exampleColor) = false.
Proof.
  apply analyzeGridAlignment_few_lines.
  left. cbn. lia.
Defined.

(** *** Ranges of the scores *)

(** There are four rule-of-thirds intersections worth 5 points each, so
    that part of the alignment score is one of 0, 5, 10, 15, 20 and its cap
    of 30 is never reached. *)
Lemma checkRuleOfThirds_range (image : Jimp) :
  In (checkRuleOfThirds image) [0; 5; 10; 15; 20]%Z.
Proof.
  unfold checkRuleOfThirds. cbv zeta. cbn [fold_left].
  repeat match goal with
         | |- context [Rgtb ?x ?y] => destruct (Rgtb x y)
         end;
    cbn; tauto.
Qed.

(** The alignment score is a multiple of 5 between 0 and 90. *)
Lemma calculateAlignmentScore_range (image : Jimp) :
  (0 <= calculateAlignmentScore image <= 90)%Z /\
  (calculateAlignmentScore image mod 5 = 0)%Z.
Proof.
  pose proof (checkRuleOfThirds_range image) as H.
  unfold calculateAlignmentScore. cbv zeta.
  set (thirds := checkRuleOfThirds image) in *.
  destruct (2 <=? List.length (detectVerticalLines image))%nat;
    destruct (2 <=? List.length (detectHorizontalLines image))%nat;
    destruct (existsb _ commonRatios);
    cbn in H;
    repeat (destruct H as [H | H]; [rewrite <- H; cbn; lia|]);
    destruct H.
Qed.

Lemma Math_round_between (lo hi : Z) (v : R) :
  IZR lo <= v <= IZR hi -> (lo <= Math_round v <= hi)%Z.
Proof.
  intros [Hlo Hhi]. unfold Math_round.
  destruct (base_Int_part (v + / 2)) as [Hle Hgt].
  split.
  - assert (IZR (lo - 1) < IZR (Int_part (v + / 2))) as H.
    { rewrite minus_IZR. lra. }
    apply lt_IZR in H. lia.
  - assert (IZR (Int_part (v + / 2)) < IZR (hi + 1)) as H.
    { rewrite plus_IZR. lra. }
    apply lt_IZR in H. lia.
Qed.

(** X5: whatever the analyzer returns, the degraded record included, has a
    score between 20 and 98 and an alignment score between 0 and 90. *)
Theorem analyzeComposition_score_range {Buffer : Type} (Jimp_read : Buffer -> outcome Jimp)
  (grey : RGBA -> RGBA) (fuel : nat) (imageBuffer : Buffer) (design_type : string)
  (result : LayoutAnalysis) :
  analyzeComposition Jimp_read grey fuel imageBuffer design_type = Ret result ->
  (20 <= score result <= 98)%Z /\
  (0 <= alignment_score result <= 90)%Z /\ (alignment_score result mod 5 = 0)%Z.
Proof.
  unfold analyzeComposition, analyzeComposition_with, analyzeComposition_try.
  destruct (Jimp_read imageBuffer) as [image|e|]; cbn [bind try_catch];
    [| intros [= <-]; cbn; lia | discriminate].
  destruct (analyzeSpacing fuel image) as [spacing|]; cbn [of_option bind try_catch];
    [| discriminate].
  intros [= <-]. cbn [score alignment_score].
  pose proof (calculateAlignmentScore_range image) as [Ha Hm].
  split; [|split; [exact Ha | exact Hm]].
  unfold calculateCompositionScore. cbv zeta.
  apply Math_round_between.
  assert (0 <= IZR (calculateAlignmentScore image) <= 90) as Hr
    by (split; apply IZR_le; lia).
  destruct (analyzeGridAlignment grey image), (analyzeBalance image), spacing; lra.
Qed.

Lemma analyzeComposition_score_range_witness :
  (20 <= score defaultAnalysis <= 98)%Z /\
  (0 <= alignment_score defaultAnalysis <= 90)%Z /\
  (alignment_score defaultAnalysis mod 5 = 0)%Z.
Proof.
  apply (analyzeComposition_score_range
           (fun _ : unit => Throw (Error "Could not find MIME for Buffer"))
           (fun p => p) 0 tt "web" defaultAnalysis).
  reflexivity.
Defined.

(** *** Balance *)

Lemma flat_map_ext_in {A B : Type} (f g : A -> list B) (l : list A) :
  (forall a, In a l -> f a = g a) -> flat_map f l = flat_map g l.
Proof.
  induction l as [|a l IH]; intros H; [reflexivity|].
  cbn. rewrite (H a (or_introl eq_refl)). f_equal. apply IH. intros; apply H; now right.
Qed.

Lemma flat_map_nil {A B : Type} (l : list A) :
  flat_map (fun _ : A => @nil B) l = [].
Proof. induction l; [reflexivity | assumption]. Qed.

(** X6: when every pixel is as bright as its mirror image in the vertical
    axis, the two halves compare with similarity 1, and the balance is
    [radial] or [symmetric], never [asymmetric]. *)
Theorem analyzeBalance_mirror (image : Jimp) :
  (2 <= getWidth image)%Z -> (1 <= getHeight image)%Z ->
  (forall x y, (0 <= x < getWidth image)%Z -> (0 <= y < getHeight image)%Z ->
     brightnessAt image x y = brightnessAt image (getWidth image - 1 - x) y) ->
  compareImageHalves (getImageHalf image left) (getImageHalf image right) = Some 1 /\
  analyzeBalance image <> asymmetric.
Proof.
  intros Hw Hh Hmirror.
  assert (Hhalf : (0 < getWidth image / 2 <= getWidth image)%Z).
  { split; [apply Z.div_str_pos; lia | apply Z.div_le_upper_bound; lia]. }
  assert (Heq : getImageHalf image right = getImageHalf image left).
  { unfold getImageHalf. cbv zeta. apply flat_map_ext_in. intros y Hy.
    apply in_range in Hy. apply map_ext_in. intros x Hx. apply in_range in Hx.
    symmetry. apply Hmirror; lia. }
  assert (Hne : getImageHalf image left <> []).
  { intros E.
    assert (In (brightnessAt image 0 0) (getImageHalf image left)) as Hin.
    { unfold getImageHalf. cbv zeta. apply in_flat_map. exists 0%Z.
      split; [apply in_range; lia|].
      apply in_map_iff. exists 0%Z. split; [reflexivity | apply in_range; lia]. }
    rewrite E in Hin. destruct Hin. }
  assert (Hscore : compareImageHalves (getImageHalf image left) (getImageHalf image right)
                   = Some 1).
  { rewrite Heq. unfold compareImageHalves. cbv zeta.
    set (half := getImageHalf image left) in *.
    rewrite Nat.min_id.
    assert (Hsum : Rsum (map (fun p => Rabs (fst p - snd p)) (combine half half)) = 0).
    { apply Rsum_zero. intros [u v] Hp.
      assert (u = v) as ->.
      { clear -Hp. induction half as [|z half IH]; [destruct Hp|].
        destruct Hp as [E | Hp]; [congruence | now apply IH]. }
      cbn. replace (v - v) with 0 by ring. apply Rabs_R0. }
    rewrite Hsum. unfold div_or_NaN.
    destruct (Req_dec_T (INR (List.length half)) 0) as [E|_].
    - change 0 with (INR 0) in E. apply INR_eq in E.
      destruct half; [contradiction | discriminate].
    - cbn. f_equal. replace (1 - 0 / INR (List.length half) / 255) with 1
        by (unfold Rdiv; ring).
      apply Rmax_right. lra. }
  split; [exact Hscore|].
  unfold analyzeBalance. cbv zeta. rewrite Hscore.
  destruct (num_gtb (analyzeRadialBalance image) (7 / 10)); [discriminate|].
  cbn. rewrite Rgtb_true by lra. discriminate.
Qed.

Lemma analyzeBalance_mirror_witness :
  analyzeBalance (solid 4 3 exampleColor) <> asymmetric.
Proof.
  apply (analyzeBalance_mirror (solid 4 3 exampleColor)).
  - cbn. lia.
  - cbn. lia.
  - intros x y _ _. reflexivity.
Defined.

(** X7: in a raster one pixel wide the halves are empty, their similarity is
    [NaN], and the balance is never [symmetric]. *)
Theorem analyzeBalance_one_column (image : Jimp) :
  getWidth image = 1%Z ->
  compareImageHalves (getImageHalf image left) (getImageHalf image right) = None /\
  analyzeBalance image <> symmetric.
Proof.
  intros Hw.
  assert (Hl : forall half, getImageHalf image half = []).
  { intros half. unfold getImageHalf. cbv zeta. rewrite Hw.
    change (range 0 (1 / 2)) with (@nil Z). cbn [map]. apply flat_map_nil. }
  assert (Hscore : compareImageHalves (getImageHalf image left) (getImageHalf image right)
                   = None).
  { rewrite !Hl. unfold compareImageHalves, div_or_NaN. cbn.
    destruct (Req_dec_T 0 0) as [_|NE]; [reflexivity | contradiction]. }
  split; [exact Hscore|].
  unfold analyzeBalance. cbv zeta. rewrite Hscore.
  destruct (num_gtb (analyzeRadialBalance image) (7 / 10)); cbn; discriminate.
Qed.

Lemma analyzeBalance_one_column_witness :
  analyzeBalance (solid 1 5 exampleColor) <> symmetric.
Proof.
  apply (analyzeBalance_one_column (solid 1 5 exampleColor)).
  reflexivity.
Defined.

(** *** Coming back *)






(** *** Visual hierarchy *)

(** X10: the hierarchy list starts with one of the two focal-point messages,
    the region it names being always "center"; at most two more entries
    follow, and at most one when the design type is none of web, mobile and
    print. *)
Theorem analyzeVisualHierarchy_shape (image : Jimp) (design_type : string) :
  exists focal rest,
    analyzeVisualHierarchy image design_type = focal :: rest /\
    (focal = "Strong focal point detected in center"%string \/
     focal = "Balanced composition with no dominant focal point"%string) /\
    (List.length rest <= 2)%nat /\
    (design_type <> "web"%string -> design_type <> "mobile"%string ->
     design_type <> "print"%string ->
     rest = [] \/ rest = ["Secondary emphasis in center"%string]).
Proof.
  unfold analyzeVisualHierarchy. cbv zeta.
  match goal with
  | |- context [sortBy ?c ?l] => generalize (sortBy c l)
  end.
  intros sorted.
  destruct (String.eqb_spec design_type "web") as [Ew|Nw];
    [| destruct (String.eqb_spec design_type "mobile") as [Em|Nm];
       [| destruct (String.eqb_spec design_type "print") as [Ep|Np]]];
    (destruct sorted as [|first [|second others]];
     repeat match goal with
            | |- context [Rgtb ?x ?y] => destruct (Rgtb x y)
            end;
     cbn [describeRegionPosition String.append app];
     eexists; eexists; (split; [reflexivity|]);
     (split; [tauto|]); (split; [cbn; lia|]);
     intros Hw Hm Hp; try contradiction; auto).
Qed.

End CompositionFacts.

(** ** Further properties of the color analyzer *)

Module ColorFacts.

Import Color.

Local Open Scope Q_scope.

Section Harmony.

Variable lib : Chroma.

(** X11: the six classes and their scores: 0 for fewer than two colours, 90
    to 100 for complementary, 85 to 100 for triadic, 80, 70 and 60 for the
    others; no palette scores between 1 and 59. *)
Theorem analyzeColorHarmony_classes (colors : list string) :
  let result := analyzeColorHarmony lib colors in
  (harmony_type result = "insufficient_colors"%string /\ harmony_score result = 0%Z /\
   (List.length colors < 2)%nat) \/
  (2 <= List.length colors)%nat /\
  ((harmony_type result = "complementary"%string /\ (90 <= harmony_score result <= 100)%Z) \/
   (harmony_type result = "triadic"%string /\ (85 <= harmony_score result <= 100)%Z) \/
   (harmony_type result = "analogous"%string /\ harmony_score result = 80%Z) \/
   (harmony_type result = "split_complementary"%string /\ harmony_score result = 70%Z) \/
   (harmony_type result = "mixed"%string /\ harmony_score result = 60%Z)).
Proof.
  cbv zeta. unfold analyzeColorHarmony.
  destruct (Nat.ltb_spec (List.length colors) 2) as [Hlt|Hge].
  - left. cbn. auto.
  - right. split; [exact Hge|]. cbv zeta.
    match goal with
    | |- context [(0 <? ?c)%Z] => destruct (Z.ltb_spec 0 c) as [Hc|Hc]
    end.
    + left. cbn [harmony_type harmony_score]. split; [reflexivity | lia].
    + match goal with
      | |- context [(0 <? ?t)%Z] => destruct (Z.ltb_spec 0 t) as [Ht|Ht]
      end.
      * right; left. cbn [harmony_type harmony_score]. split; [reflexivity | lia].
      * repeat match goal with
               | |- context [Qltb ?x ?y] => destruct (Qltb x y)
               end; cbn; tauto.
Qed.

Lemma in_pairs {A : Type} (l : list A) (p : A * A) :
  In p (pairs l) -> In (fst p) l /\ In (snd p) l.
Proof.
  induction l as [|x rest IH]; [intros []|].
  cbn [pairs]. rewrite in_app_iff, in_map_iff.
  intros [(y & <- & Hy) | Hp].
  - cbn. auto.
  - destruct (IH Hp). cbn. auto.
Qed.

Lemma in_triples {A : Type} (l : list A) (t : A * A * A) :
  In t (triples l) -> In (fst (fst t)) l /\ In (snd (fst t)) l /\ In (snd t) l.
Proof.
  induction l as [|x rest IH]; [intros []|].
  cbn [triples]. rewrite in_app_iff, in_map_iff.
  intros [(p & <- & Hp) | Ht].
  - apply in_pairs in Hp. cbn. tauto.
  - destruct (IH Ht) as (? & ? & ?). cbn. auto.
Qed.

Lemma not_far_apart (h a b : Q) (lo : Q) :
  a == h -> b == h -> 0 < lo -> Qltb lo (Qabs (a - b)) = false.
Proof.
  intros Ha Hb Hlo. destruct (Qltb lo (Qabs (a - b))) eqn:E; [|reflexivity].
  apply Qltb_lt in E. rewrite Ha, Hb in E.
  setoid_replace (h - h) with 0 in E by ring.
  change (Qabs 0) with 0 in E. exfalso. Lqa.lra.
Qed.

Lemma not_a_third_apart (h a b : Q) :
  a == h -> b == h -> Qltb (Qabs (b - a - 120)) 30 = false.
Proof.
  intros Ha Hb. destruct (Qltb (Qabs (b - a - 120)) 30) eqn:E; [|reflexivity].
  apply Qltb_lt in E. rewrite Ha, Hb in E.
  setoid_replace (h - h - 120) with (- (120)) in E by ring.
  discriminate E.
Qed.

Lemma isTriadic_same (h : Q) (t : Q * Q * Q) :
  fst (fst t) == h -> snd (fst t) == h -> snd t == h -> isTriadic t = false.
Proof.
  destruct t as [[a b] c]. cbn [fst snd]. intros Ha Hb Hc.
  unfold isTriadic, sort3. cbn [fst snd].
  destruct (Qleb a b); destruct (Qleb b c); try destruct (Qleb a c);
    try destruct (Qleb b c); try destruct (Qleb a c);
    rewrite (not_a_third_apart h) by assumption; reflexivity.
Qed.

Lemma fold_Qmax_same (h : Q) (l : list Q) :
  forall acc, acc == h -> (forall x, In x l -> x == h) -> fold_left Qmax l acc == h.
Proof.
  induction l as [|x rest IH]; intros acc Hacc Hl; [exact Hacc|].
  cbn [fold_left]. apply IH.
  - rewrite Hacc, (Hl x (or_introl eq_refl)). apply Q.max_id.
  - intros; apply Hl; now right.
Qed.

Lemma fold_Qmin_same (h : Q) (l : list Q) :
  forall acc, acc == h -> (forall x, In x l -> x == h) -> fold_left Qmin l acc == h.
Proof.
  induction l as [|x rest IH]; intros acc Hacc Hl; [exact Hacc|].
  cbn [fold_left]. apply IH.
  - rewrite Hacc, (Hl x (or_introl eq_refl)). apply Q.min_id.
  - intros; apply Hl; now right.
Qed.

(** X12: a palette of two or more colours that all have the same hue, as do
    greys and strings that do not parse (hue 0), is [analogous] with score
    80. *)
Theorem analyzeColorHarmony_one_hue (colors : list string) (h : Q) :
  (2 <= List.length colors)%nat ->
  (forall x, In x (paletteHues lib colors) -> x == h) ->
  analyzeColorHarmony lib colors = mkHarmony "analogous" 80.
Proof.
  intros Hlen Hh. unfold analyzeColorHarmony.
  destruct (Nat.ltb_spec (List.length colors) 2); [lia|]. cbv zeta.
  rewrite map_map. fold (paletteHues lib colors).
  set (hues := paletteHues lib colors) in *.
  rewrite (Composition.filter_none isComplementary).
  2:{ intros p Hp. apply in_pairs in Hp. destruct Hp as [Ha Hb].
      unfold isComplementary. cbv zeta.
      rewrite (not_far_apart h _ _ 170) by (auto; reflexivity). reflexivity. }
  unfold checkTriadicHarmony. rewrite (Composition.filter_none isTriadic).
  2:{ intros t Ht. apply in_triples in Ht. destruct Ht as (Ha & Hb & Hc).
      apply (isTriadic_same h); auto. }
  cbn [List.length Z.of_nat Z.ltb Z.compare].
  assert (Hrange : Qmax_list hues - Qmin_list hues == 0).
  { destruct hues as [|x rest] eqn:E.
    - unfold hues, paletteHues in E. apply map_eq_nil in E. subst. cbn in Hlen. lia.
    - unfold Qmax_list, Qmin_list.
      rewrite (fold_Qmax_same h), (fold_Qmin_same h);
        try (intros; apply Hh; now right); try (apply Hh; now left).
      ring. }
  rewrite (Qltb_comp _ _ Hrange _ _ (Qeq_refl 60)). reflexivity.
Qed.

End Harmony.

Lemma analyzeColorHarmony_one_hue_witness :
  analyzeColorHarmony exampleChroma ["#000000"; "not a colour"; "#ffffff"]%string
  = mkHarmony "analogous" 80.
Proof.
  apply (analyzeColorHarmony_one_hue exampleChroma _ 0).
  - cbn. lia.
  - intros x Hx. cbn in Hx.
    destruct Hx as [<- | [<- | [<- | []]]]; reflexivity.
Defined.

Section Contrast.

Variable lib : Chroma.

(** X13: the WCAG level follows the ratio: [AAA] from 7, [AA] from 4.5 and
    below 7, [fail] below 4.5; the AAA flag implies the AA flag. *)
Theorem checkAccessibility_levels (foreground background : string) :
  let result := checkAccessibility lib foreground background in
  (wcag_level result = AAA <-> 7 <= contrast_ratio result) /\
  (wcag_level result = AA <->
   (45 # 10) <= contrast_ratio result /\ contrast_ratio result < 7) /\
  (wcag_level result = fail <-> contrast_ratio result < (45 # 10)) /\
  (wcag_aaa result = true -> wcag_aa result = true) /\
  (wcag_aa result = true <-> (45 # 10) <= contrast_ratio result).
Proof.
  cbv zeta. unfold checkAccessibility. cbv zeta.
  cbn [wcag_level contrast_ratio wcag_aa wcag_aaa].
  generalize (calculateContrast lib foreground background). intros ratio.
  destruct (Qleb 7 ratio) eqn:E7; destruct (Qleb (45 # 10) ratio) eqn:E45;
    try (apply Qleb_le in E7); try (apply Qleb_le in E45);
    try (assert (~ 7 <= ratio) as N7
           by (intros L; apply Qleb_le in L; congruence));
    try (assert (~ (45 # 10) <= ratio) as N45
           by (intros L; apply Qleb_le in L; congruence));
    try (apply Qnot_le_lt in N7); try (apply Qnot_le_lt in N45);
    repeat split; intros; try discriminate; try reflexivity; try assumption;
    try (exfalso; Lqa.lra); try Lqa.lra;
    try (match goal with H : _ /\ _ |- _ => destruct H end; exfalso; Lqa.lra).
Qed.

(** What chroma-js guarantees of a colour it has parsed: a relative
    luminance between 0 and 1. *)
Hypothesis luminance_range :
  forall s c, chroma lib s = Some c -> 0 <= luminance lib c <= 1.

Lemma chroma_contrast_range (x y : color lib) :
  0 <= luminance lib x <= 1 -> 0 <= luminance lib y <= 1 ->
  1 <= chroma_contrast lib x y <= 21.
Proof.
  intros Hx Hy. unfold chroma_contrast. cbv zeta.
  destruct (Qltb (luminance lib y) (luminance lib x)) eqn:E.
  - apply Qltb_lt in E. split.
    + apply Qle_shift_div_l; Lqa.lra.
    + apply Qle_shift_div_r; Lqa.lra.
  - assert (luminance lib x <= luminance lib y) as L.
    { apply Qnot_lt_le. intros L. apply Qltb_lt in L. congruence. }
    split.
    + apply Qle_shift_div_l; Lqa.lra.
    + apply Qle_shift_div_r; Lqa.lra.
Qed.

(** X14: the contrast ratio lies between 1 and 21, and a colour has ratio 1
    with itself, whether it parses or not. *)
Theorem calculateContrast_range (A B : string) :
  1 <= calculateContrast lib A B <= 21 /\ calculateContrast lib A A == 1.
Proof.
  unfold calculateContrast. split.
  - destruct (chroma lib A) as [a|] eqn:Ea; [|split; discriminate].
    destruct (chroma lib B) as [b|] eqn:Eb; [|split; discriminate].
    apply chroma_contrast_range; eapply luminance_range; eassumption.
  - destruct (chroma lib A) as [a|] eqn:Ea; [|reflexivity].
    unfold chroma_contrast. cbv zeta.
    pose proof (luminance_range A a Ea) as H.
    destruct (Qltb (luminance lib a) (luminance lib a)); field; Lqa.lra.
Qed.

End Contrast.

Lemma exampleChroma_luminance (s : string) (c : color exampleChroma) :
  chroma exampleChroma s = Some c -> 0 <= luminance exampleChroma c <= 1.
Proof.
  cbn. intros H.
  repeat match type of H with
         | (if ?b then _ else _) = _ => destruct b
         end;
    inversion H; subst; cbn; split; discriminate.
Qed.

Lemma calculateContrast_range_witness :
  1 <= calculateContrast exampleChroma "#ff0000" "#00ffff" <= 21 /\
  calculateContrast exampleChroma "#ff0000" "#ff0000" == 1.
Proof.
  apply (calculateContrast_range exampleChroma exampleChroma_luminance).
Defined.

End ColorFacts.

(** ** Counting colours: the [Map<string, number>] of the two extractors *)

From Stdlib Require Import Permutation.

Module Tally.

(** [colorMap.get(color)] *)
Fixpoint get (color : string) (colorMap : list (string * Z)) : option Z :=
  match colorMap with
  | [] => None
  | (k, v) :: rest => if String.eqb color k then Some v else get color rest
  end.

(** [colorMap.set(color, count)]: an old key keeps its place, a new one goes last *)
Fixpoint set (color : string) (count : Z) (colorMap : list (string * Z))
  : list (string * Z) :=
  match colorMap with
  | [] => [(color, count)]
  | (k, v) :: rest =>
      if String.eqb color k then (color, count) :: rest
      else (k, v) :: set color count rest
  end.

(** [colorMap.set(color, (colorMap.get(color) || 0) + 1)] *)
Definition countColor (color : string) (colorMap : list (string * Z)) : list (string * Z) :=
  set color ((match get color colorMap with
              | Some n => n
              | None => 0
              end) + 1)%Z colorMap.

(** [.sort((a, b) => b[1] - a[1])]: stable, most frequent first *)
Fixpoint insertByCount (a : string * Z) (l : list (string * Z)) : list (string * Z) :=
  match l with
  | [] => [a]
  | b :: rest =>
      if (snd b - snd a <=? 0)%Z then a :: b :: rest
      else b :: insertByCount a rest
  end.

Definition sortByCount (l : list (string * Z)) : list (string * Z) :=
  fold_right insertByCount [] l.

(** [l.slice(0, n)]: a negative [n] counts from the end *)
Definition slice0 {A : Type} (n : Z) (l : list A) : list A :=
  if (n <? 0)%Z then firstn (Z.to_nat (Z.max (Z.of_nat (List.length l) + n) 0)) l
  else firstn (Z.to_nat n) l.

(** [for (let i = 0; i < len; i += step)]: the values of [i] *)
Definition stride (len step : nat) : list nat :=
  map (fun k => (k * step)%nat) (seq 0 ((len + step - 1) / step)).

Example stride_31 : stride 31 30 = [0; 30]%nat.
Proof. reflexivity. Qed.

Example stride_30 : stride 30 30 = [0]%nat.
Proof. reflexivity. Qed.

Example countColor_twice :
  countColor "#ff0000" (countColor "#00ff00" (countColor "#ff0000" []))
  = [("#ff0000"%string, 2%Z); ("#00ff00"%string, 1%Z)].
Proof. reflexivity. Qed.

Example sortByCount_stable :
  map fst (sortByCount [("a"%string, 1%Z); ("b"%string, 3%Z); ("c"%string, 1%Z);
                        ("d"%string, 3%Z)])
  = ["b"; "d"; "a"; "c"]%string.
Proof. reflexivity. Qed.

Lemma in_keys_set (color : string) (count : Z) (colorMap : list (string * Z)) (x : string) :
  In x (map fst (set color count colorMap)) <-> x = color \/ In x (map fst colorMap).
Proof.
  induction colorMap as [|[k v] rest IH]; cbn [set map fst In].
  - intuition congruence.
  - destruct (String.eqb_spec color k) as [->|Hne]; cbn [map fst In].
    + intuition congruence.
    + rewrite IH. tauto.
Qed.

Lemma NoDup_keys_set (color : string) (count : Z) (colorMap : list (string * Z)) :
  NoDup (map fst colorMap) -> NoDup (map fst (set color count colorMap)).
Proof.
  induction colorMap as [|[k v] rest IH]; cbn [set map fst]; intros H.
  - constructor; [intros [] | constructor].
  - inversion H as [|? ? Hk Hrest]; subst.
    destruct (String.eqb_spec color k) as [->|Hne]; cbn [map fst].
    + now constructor.
    + constructor; [|now apply IH].
      rewrite in_keys_set. intros [E | Hin]; [congruence | contradiction].
Qed.

Lemma NoDup_keys_countColor (color : string) (colorMap : list (string * Z)) :
  NoDup (map fst colorMap) -> NoDup (map fst (countColor color colorMap)).
Proof. apply NoDup_keys_set. Qed.

Lemma insertByCount_perm (a : string * Z) (l : list (string * Z)) :
  Permutation (insertByCount a l) (a :: l).
Proof.
  induction l as [|b rest IH]; cbn [insertByCount]; [reflexivity|].
  destruct (snd b - snd a <=? 0)%Z; [reflexivity|].
  rewrite IH. apply perm_swap.
Qed.

Lemma sortByCount_perm (l : list (string * Z)) : Permutation (sortByCount l) l.
Proof.
  induction l as [|a rest IH]; [reflexivity|].
  cbn [sortByCount fold_right]. rewrite insertByCount_perm.
  now apply perm_skip.
Qed.

Lemma In_firstn {A : Type} (x : A) (l : list A) :
  forall n, In x (firstn n l) -> In x l.
Proof.
  induction l as [|y rest IH]; intros n Hin; [now rewrite firstn_nil in Hin|].
  destruct n; [destruct Hin|]. destruct Hin as [-> | Hin]; [now left|].
  right. eapply IH; eassumption.
Qed.

Lemma NoDup_firstn {A : Type} (n : nat) (l : list A) : NoDup l -> NoDup (firstn n l).
Proof.
  revert n. induction l as [|x rest IH]; intros n H; [now rewrite firstn_nil|].
  destruct n as [|n]; [constructor|].
  inversion H as [|? ? Hx Hrest]; subst. cbn [firstn]. constructor.
  - intros Hin. apply Hx. eapply In_firstn; eassumption.
  - now apply IH.
Qed.

Lemma NoDup_slice0 {A : Type} (n : Z) (l : list A) : NoDup l -> NoDup (slice0 n l).
Proof. intros H. unfold slice0. destruct (n <? 0)%Z; now apply NoDup_firstn. Qed.

Lemma length_slice0 {A : Type} (n : Z) (l : list A) :
  (0 <= n)%Z -> (Z.of_nat (List.length (slice0 n l)) <= n)%Z.
Proof.
  intros Hn. unfold slice0. destruct (Z.ltb_spec n 0); [lia|].
  rewrite length_firstn. lia.
Qed.

(** The most frequent colours of a count, at most [n] of them *)
Definition mostFrequent (n : Z) (colorMap : list (string * Z)) : list string :=
  map fst (slice0 n (sortByCount colorMap)).

Lemma NoDup_mostFrequent (n : Z) (colorMap : list (string * Z)) :
  NoDup (map fst colorMap) -> NoDup (mostFrequent n colorMap).
Proof.
  intros H. unfold mostFrequent, slice0.
  assert (Hs : NoDup (map fst (sortByCount colorMap))).
  { eapply Permutation_NoDup; [|exact H].
    apply Permutation_map. symmetry. apply sortByCount_perm. }
  destruct (n <? 0)%Z; rewrite <- firstn_map; now apply NoDup_firstn.
Qed.

Lemma length_mostFrequent (n : Z) (colorMap : list (string * Z)) :
  (0 <= n)%Z -> (Z.of_nat (List.length (mostFrequent n colorMap)) <= n)%Z.
Proof.
  intros Hn. unfold mostFrequent. rewrite length_map. now apply length_slice0.
Qed.

End Tally.

(** ** Palette extraction and the color analysis (analyzers/color-analyzer.ts) *)

Module Palette.

Import Tally.

Local Open Scope Q_scope.

(** The six swatches of node-vibrant, each of which may be missing *)
Record VibrantPalette : Type := mkVibrantPalette {
  Vibrant : option string;
  Muted : option string;
  DarkVibrant : option string;
  DarkMuted : option string;
  LightVibrant : option string;
  LightMuted : option string
}.

Record ContrastIssue : Type := mkContrastIssue {
  issue_foreground : string;
  issue_background : string;
  issue_contrast_ratio : Q;
  issue_wcag_level : Color.WcagLevel
}.

Record ColorAnalysis : Type := mkColorAnalysis {
  palette : list string;
  harmony_score : Z;
  harmony_type : string;
  contrast_issues : list ContrastIssue
}.

Definition greyRamp : list string :=
  ["#000000"; "#333333"; "#666666"; "#999999"; "#cccccc"; "#ffffff"]%string.

Section WithLibraries.

Variable lib : Chroma.
Variable Buffer : Type.

(** [chroma([r, g, b]).hex()] on three entries of the raw data, each
    [undefined] past its end; [None] when chroma throws *)
Variable hexOf : option Z -> option Z -> option Z -> option string.

(** [sharp(imageBuffer).raw().toBuffer(...)]: the raw bytes *)
Variable sharp_raw : Buffer -> outcome (list Z).

(** [Vibrant.from(imageBuffer).getPalette()] *)
Variable Vibrant_getPalette : Buffer -> outcome VibrantPalette.

(** Every 30th byte starts a sample; the [width] and [height] arguments of
    the source are not read. *)
Definition extractColorsFromRawData (data : list Z) (colorCount : Z) : list string :=
  let colorMap :=
    fold_left (fun colorMap i =>
                 match hexOf (nth_error data i) (nth_error data (i + 1))
                             (nth_error data (i + 2)) with
                 | Some color => countColor color colorMap
                 | None => colorMap
                 end)
              (stride (List.length data) 30) [] in
  let sortedColors := mostFrequent colorCount colorMap in
  match sortedColors with
  | [] => ["#000000"; "#ffffff"]%string
  | _ => sortedColors
  end.

Definition extractAdditionalColors (imageBuffer : Buffer) (count : Z)
  : outcome (list string) :=
  try_catch
    (data <- sharp_raw imageBuffer ;;
     Ret (extractColorsFromRawData data count))
    (fun _ => Ret []).

Definition extractColorsFromSharp (imageBuffer : Buffer) (colorCount : Z)
  : outcome (list string) :=
  try_catch
    (data <- sharp_raw imageBuffer ;;
     Ret (extractColorsFromRawData data colorCount))
    (fun _ => Ret (slice0 colorCount greyRamp)).

Definition swatch (s : option string) : list string :=
  match s with Some hex => [hex] | None => [] end.

Definition extractPalette (imageBuffer : Buffer) (colorCount : Z)
  : outcome (list string) :=
  try_catch
    (palette <- Vibrant_getPalette imageBuffer ;;
     let colors :=
       (swatch (Vibrant palette) ++ swatch (Muted palette) ++
        swatch (DarkVibrant palette) ++ swatch (DarkMuted palette) ++
        swatch (LightVibrant palette) ++ swatch (LightMuted palette))%list in
     colors <-
       (if (Z.of_nat (List.length colors) <? colorCount)%Z
        then
          additionalColors <-
            extractAdditionalColors imageBuffer
              (colorCount - Z.of_nat (List.length colors))%Z ;;
          Ret (colors ++ additionalColors)%list
        else Ret colors) ;;
     Ret (slice0 colorCount colors))
    (fun _ => extractColorsFromSharp imageBuffer colorCount).

(** The part of [analyzeColors] after the palette: the harmony, and the
    pairs [i < j] among the first four colours that fail AA *)
Definition analyzeColorsOf (palette : list string) : ColorAnalysis :=
  let harmony := Color.analyzeColorHarmony lib palette in
  let contrast_issues :=
    flat_map (fun p =>
                let accessibility := Color.checkAccessibility lib (fst p) (snd p) in
                if negb (Color.wcag_aa accessibility)
                then [mkContrastIssue (fst p) (snd p)
                        (Color.contrast_ratio accessibility)
                        (Color.wcag_level accessibility)]
                else [])
             (pairs (firstn 4 palette)) in
  mkColorAnalysis palette (Color.harmony_score harmony) (Color.harmony_type harmony)
                  contrast_issues.

Definition analyzeColors (imageBuffer : Buffer) : outcome ColorAnalysis :=
  palette <- extractPalette imageBuffer 8 ;;
  Ret (analyzeColorsOf palette).

(** *** Properties *)

Lemma colorMap_NoDup (data : list Z) (indices : list nat) :
  forall colorMap, NoDup (map fst colorMap) ->
    NoDup (map fst
      (fold_left (fun colorMap i =>
                    match hexOf (nth_error data i) (nth_error data (i + 1))
                                (nth_error data (i + 2)) with
                    | Some color => countColor color colorMap
                    | None => colorMap
                    end) indices colorMap)).
Proof.
  induction indices as [|i rest IH]; intros colorMap H; [exact H|].
  cbn [fold_left]. apply IH.
  destruct (hexOf _ _ _); [now apply NoDup_keys_countColor | exact H].
Qed.

(** X15: the colours extracted from raw data are never an empty list and
    never hold a colour twice; there are at most [colorCount] of them when
    that is at least 2 (the fallback has two colours). *)
Theorem extractColorsFromRawData_palette (data : list Z) (colorCount : Z) :
  extractColorsFromRawData data colorCount <> [] /\
  NoDup (extractColorsFromRawData data colorCount) /\
  ((2 <= colorCount)%Z ->
   (Z.of_nat (List.length (extractColorsFromRawData data colorCount)) <= colorCount)%Z).
Proof.
  unfold extractColorsFromRawData. cbv zeta.
  match goal with
  | |- context [mostFrequent colorCount ?m] =>
      pose proof (NoDup_mostFrequent colorCount m
                    (colorMap_NoDup data _ [] (NoDup_nil _))) as Hnd;
      pose proof (length_mostFrequent colorCount m) as Hlen;
      destruct (mostFrequent colorCount m) as [|c rest]
  end.
  - split; [discriminate|]. split.
    + repeat constructor; cbn; intuition discriminate.
    + intros H. cbn. lia.
  - split; [discriminate|]. split; [exact Hnd|]. intros H. apply Hlen. lia.
Qed.

Lemma length_swatches (p : VibrantPalette) :
  (List.length (swatch (Vibrant p) ++ swatch (Muted p) ++ swatch (DarkVibrant p) ++
                swatch (DarkMuted p) ++ swatch (LightVibrant p) ++
                swatch (LightMuted p)) <= 6)%nat.
Proof.
  destruct (Vibrant p), (Muted p), (DarkVibrant p), (DarkMuted p), (LightVibrant p),
    (LightMuted p); cbn; lia.
Qed.

(** X16: [extractPalette] never throws, whatever node-vibrant and sharp do;
    for a [colorCount] of at least 2 the palette it returns has at most
    [colorCount] colours. *)
Theorem extractPalette_bounded (imageBuffer : Buffer) (colorCount : Z) :
  (forall e, extractPalette imageBuffer colorCount <> Throw e) /\
  ((2 <= colorCount)%Z -> forall palette,
     extractPalette imageBuffer colorCount = Ret palette ->
     (Z.of_nat (List.length palette) <= colorCount)%Z).
Proof.
  unfold extractPalette, extractColorsFromSharp, extractAdditionalColors.
  destruct (Vibrant_getPalette imageBuffer) as [p|e0|]; cbn [bind try_catch].
  - set (colors := (swatch (Vibrant p) ++ _)%list).
    destruct (Z.of_nat (List.length colors) <? colorCount)%Z.
    + destruct (sharp_raw imageBuffer) as [data|e1|]; cbn [bind try_catch];
        (split; [discriminate|]); intros Hn palette [= <-];
        apply length_slice0; lia.
    + cbn [bind try_catch]. split; [discriminate|].
      intros Hn palette [= <-]. apply length_slice0; lia.
  - destruct (sharp_raw imageBuffer) as [data|e1|]; cbn [bind try_catch];
      (split; [discriminate|]); intros Hn palette [= <-].
    + unfold extractColorsFromRawData. cbv zeta.
      match goal with
      | |- context [mostFrequent colorCount ?m] =>
          pose proof (length_mostFrequent colorCount m ltac:(lia)) as Hlen;
          destruct (mostFrequent colorCount m)
      end; [cbn; lia | exact Hlen].
    + apply length_slice0; lia.
  - split; discriminate.
Qed.

(** X17: when node-vibrant and sharp both throw, the palette is the grey
    ramp cut to [colorCount] colours. *)
Theorem extractPalette_fallback (imageBuffer : Buffer) (colorCount : Z) (e1 e2 : error) :
  Vibrant_getPalette imageBuffer = Throw e1 -> sharp_raw imageBuffer = Throw e2 ->
  (0 <= colorCount)%Z ->
  extractPalette imageBuffer colorCount = Ret (firstn (Z.to_nat colorCount) greyRamp).
Proof.
  intros Hv Hs Hn. unfold extractPalette, extractColorsFromSharp.
  rewrite Hv. cbn [bind try_catch]. rewrite Hs. cbn [bind try_catch].
  unfold slice0. destruct (Z.ltb_spec colorCount 0); [lia | reflexivity].
Qed.

Lemma length_pairs {A : Type} (l : list A) :
  (2 * List.length (pairs l) = List.length l * (List.length l - 1))%nat.
Proof.
  induction l as [|x rest IH]; [reflexivity|].
  cbn [pairs]. rewrite length_app, length_map. cbn [List.length]. nia.
Qed.

Lemma length_flat_map_le {A B : Type} (f : A -> list B) (l : list A) :
  (forall a, List.length (f a) <= 1)%nat ->
  (List.length (flat_map f l) <= List.length l)%nat.
Proof.
  intros Hf. induction l as [|a rest IH]; [reflexivity|].
  cbn [flat_map]. rewrite length_app. specialize (Hf a). cbn [List.length]. lia.
Qed.

(** X18: the color analysis reports at most six contrast issues, each
    between two palette colours with a ratio below 4.5, and each with level
    [fail]: the levels [AA] and [AAA] never occur in the issue list. *)
Theorem analyzeColorsOf_issues (colors : list string) :
  (List.length (contrast_issues (analyzeColorsOf colors)) <= 6)%nat /\
  forall issue, In issue (contrast_issues (analyzeColorsOf colors)) ->
    issue_wcag_level issue = Color.fail /\
    issue_contrast_ratio issue < (45 # 10) /\
    issue_contrast_ratio issue
    == Color.calculateContrast lib (issue_foreground issue) (issue_background issue) /\
    In (issue_foreground issue) colors /\ In (issue_background issue) colors.
Proof.
  unfold analyzeColorsOf. cbv zeta. cbn [contrast_issues]. split.
  - etransitivity; [apply length_flat_map_le|].
    + intros a. destruct (negb _); cbn; lia.
    + pose proof (length_pairs (firstn 4 colors)) as H.
      pose proof (firstn_le_length 4 colors) as H4.
      rewrite length_firstn in *. nia.
  - intros issue Hin. apply in_flat_map in Hin. destruct Hin as (p & Hp & Hin).
    apply ColorFacts.in_pairs in Hp. destruct Hp as [Hf Hb].
    apply In_firstn in Hf, Hb.
    unfold Color.checkAccessibility in Hin. cbv zeta in Hin.
    cbn [Color.wcag_aa Color.contrast_ratio Color.wcag_level] in Hin.
    set (ratio := Color.calculateContrast lib (fst p) (snd p)) in *.
    destruct (Qleb (45 # 10) ratio) eqn:E45; cbn [negb] in Hin; [destruct Hin|].
    assert (Hlt : ratio < 45 # 10).
    { apply Qnot_le_lt. intros Hle. apply Qleb_le in Hle. congruence. }
    assert (E7 : Qleb 7 ratio = false).
    { destruct (Qleb 7 ratio) eqn:E7; [|reflexivity].
      apply Qleb_le in E7. exfalso. Lqa.lra. }
    rewrite E7 in Hin. destruct Hin as [<- | []]. cbn.
    repeat split; try assumption; reflexivity.
Qed.

End WithLibraries.

(** Both libraries throw on every buffer. *)
Lemma extractPalette_fallback_witness :
  extractPalette unit (fun _ _ _ => None) (fun _ => Throw (Error "Input buffer is empty"))
                 (fun _ => Throw (Error "Input buffer is empty")) tt 3
  = Ret ["#000000"; "#333333"; "#666666"]%string.
Proof.
  apply (extractPalette_fallback unit (fun _ _ _ => None)
           (fun _ => Throw (Error "Input buffer is empty"))
           (fun _ => Throw (Error "Input buffer is empty")) tt 3
           (Error "Input buffer is empty") (Error "Input buffer is empty")).
  - reflexivity.
  - reflexivity.
  - lia.
Defined.

(** Three raw pixels, two of them red, with a [hexOf] that knows red and blue *)
Definition exampleHexOf (r g b : option Z) : option string :=
  match r, g, b with
  | Some 255%Z, Some 0%Z, Some 0%Z => Some "#ff0000"%string
  | Some 0%Z, Some 0%Z, Some 255%Z => Some "#0000ff"%string
  | _, _, _ => None
  end.

Definition exampleData : list Z :=
  ([0; 0; 255] ++ repeat 7 27 ++ [255; 0; 0] ++ repeat 7 27 ++ [255; 0; 0])%list%Z.

Example extractColorsFromRawData_example :
  extractColorsFromRawData exampleHexOf exampleData 8 = ["#ff0000"; "#0000ff"]%string /\
  extractColorsFromRawData exampleHexOf exampleData 1 = ["#ff0000"]%string /\
  extractColorsFromRawData exampleHexOf [] 1 = ["#000000"; "#ffffff"]%string.
Proof. repeat split. Qed.

Lemma extractPalette_bounded_witness :
  (Z.of_nat (List.length ["#ff0000"; "#ff0000"]%string) <= 2)%Z.
Proof.
  apply (extractPalette_bounded unit exampleHexOf (fun _ => Ret exampleData)
           (fun _ => Ret (mkVibrantPalette (Some "#ff0000"%string) None None None None None))
           tt 2).
  - lia.
  - reflexivity.
Defined.

(** The additional colours are appended as they are: a swatch that is also
    the most frequent raw colour is in the palette twice. *)
Example extractPalette_repeats :
  extractPalette unit exampleHexOf (fun _ => Ret exampleData)
    (fun _ => Ret (mkVibrantPalette (Some "#ff0000"%string) None None None None None))
    tt 2 = Ret ["#ff0000"; "#ff0000"]%string.
Proof. reflexivity. Qed.

End Palette.

(** ** The rest of the accessibility analyzer *)

From Stdlib Require DecimalString.

Module AccessibilityFacts.

Import Accessibility.

Local Open Scope Q_scope.

(** [`${n}`] *)
Definition numberToString (n : nat) : string :=
  DecimalString.NilZero.string_of_uint (Nat.to_uint n).

Record AccessibilityAnalysis : Type := mkAccessibilityAnalysis {
  score : Z;
  issues : list string;
  recommendations : list string;
  contrast_checks : list ContrastCheck;
  color_blindness_simulation : ColorBlindness
}.

Definition identifyAccessibilityIssues (contrastChecks : list ContrastCheck)
  (colorBlindnessAnalysis : ColorBlindness) : list string :=
  let failedAAChecks := filter (fun check => negb (passes_aa check)) contrastChecks in
  let failedAAAChecks := filter (fun check => negb (passes_aaa check)) contrastChecks in
  ((if (0 <? List.length failedAAChecks)%nat
    then [(numberToString (List.length failedAAChecks)
           ++ " color combinations fail WCAG AA contrast requirements")%string]
    else []) ++
   (if Qltb (ofNat (List.length contrastChecks) * (5 # 10))
            (ofNat (List.length failedAAAChecks))
    then ["Many color combinations fail WCAG AAA contrast requirements"%string]
    else []) ++
   (if negb (protanopia_safe colorBlindnessAnalysis)
    then ["Design may not be accessible to users with red-green color blindness (protanopia)"%string]
    else []) ++
   (if negb (deuteranopia_safe colorBlindnessAnalysis)
    then ["Design may not be accessible to users with green-red color blindness (deuteranopia)"%string]
    else []) ++
   (if negb (tritanopia_safe colorBlindnessAnalysis)
    then ["Design may not be accessible to users with blue-yellow color blindness (tritanopia)"%string]
    else []) ++
   (if (0 <? List.length contrastChecks)%nat
    then
      let lowContrastPairs := filter (fun check => Qltb (ratio check) 2) contrastChecks in
      if (0 <? List.length lowContrastPairs)%nat
      then ["Some elements may rely too heavily on color alone to convey information"%string]
      else []
    else []))%list.

Definition generateAccessibilityRecommendations (contrastChecks : list ContrastCheck)
  (colorBlindnessAnalysis : ColorBlindness) : list string :=
  let failedAAChecks := filter (fun check => negb (passes_aa check)) contrastChecks in
  let borderlineChecks :=
    filter (fun check => Qleb (45 # 10) (ratio check) && Qltb (ratio check) 7)
           contrastChecks in
  let colorBlindnessIssues :=
    List.length (filter (fun b : bool => b)
                   [protanopia_safe colorBlindnessAnalysis;
                    deuteranopia_safe colorBlindnessAnalysis;
                    tritanopia_safe colorBlindnessAnalysis]) in
  ((if (0 <? List.length failedAAChecks)%nat
    then ["Increase contrast between text and background colors to meet WCAG AA standards (minimum 4.5:1 ratio)"%string]
    else []) ++
   (if (0 <? List.length borderlineChecks)%nat
    then ["Consider increasing contrast further to meet WCAG AAA standards (7:1 ratio) for better accessibility"%string]
    else []) ++
   (if (colorBlindnessIssues <? 3)%nat
    then ["Add visual indicators beyond color (icons, patterns, text labels) to ensure information is accessible to color-blind users"%string]
    else []) ++
   ["Test your design with accessibility tools and screen readers"%string;
    "Ensure all interactive elements have sufficient size (minimum 44px touch target)"%string;
    "Use semantic HTML and proper heading hierarchy in implementation"%string] ++
   (if (0 <? List.length contrastChecks)%nat
    then
      if Qltb (averageRatio contrastChecks) 7
      then ["Consider using darker text on light backgrounds or lighter text on dark backgrounds"%string]
      else []
    else []))%list.

Section WithLibraries.

Variable lib : Chroma.
Variable Buffer : Type.
Variable Jimp_read : Buffer -> outcome Composition.Jimp.

(** [chroma([r, g, b]).hex()]; [None] when chroma throws *)
Variable hexOfRGB : Z -> Z -> Z -> option string.

(** [chroma(color).lab()] and [chroma.lab(l, a, b).hex()]; [None] when they throw *)
Variable labOf : string -> option (Q * Q * Q).
Variable hexOfLab : Q -> Q -> Q -> option string.

(** [chroma.deltaE(a, b)]; [None] when it throws *)
Variable deltaE : string -> string -> option Q.

(** Every 20th pixel of every 20th row, row by row *)
Definition samplePoints (image : Composition.Jimp) : list (Z * Z) :=
  flat_map (fun y =>
    map (fun x => (Z.of_nat x, Z.of_nat y))
        (Tally.stride (Z.to_nat (Composition.getWidth image)) 20))
    (Tally.stride (Z.to_nat (Composition.getHeight image)) 20).

Definition countPixel (image : Composition.Jimp) (colorMap : list (string * Z))
  (p : Z * Z) : list (string * Z) :=
  let pixelColor := Composition.getPixelColor image (fst p) (snd p) in
  if (128 <? Composition.a pixelColor)%Z
  then
    match hexOfRGB (Composition.r pixelColor) (Composition.g pixelColor)
                   (Composition.b pixelColor) with
    | Some color => Tally.countColor color colorMap
    | None => colorMap
    end
  else colorMap.

Definition extractDominantColors (image : Composition.Jimp) : list string :=
  let colorMap := fold_left (countPixel image) (samplePoints image) [] in
  Tally.mostFrequent 10 colorMap.

Definition simulateProtanopia (color : string) : string :=
  match labOf color with
  | Some (l, a, b) =>
      match hexOfLab l (a * (3 # 10)) b with Some hex => hex | None => color end
  | None => color
  end.

Definition simulateDeuteranopia (color : string) : string :=
  match labOf color with
  | Some (l, a, b) =>
      match hexOfLab l (a * (7 # 10)) (b * (3 # 10)) with Some hex => hex | None => color end
  | None => color
  end.

Definition simulateTritanopia (color : string) : string :=
  match labOf color with
  | Some (l, a, b) =>
      match hexOfLab l a (b * (3 # 10)) with Some hex => hex | None => color end
  | None => color
  end.

(** The loops return [false] at the first pair that is closer than 10 or
    cannot be compared, and [true] when there is none. *)
Definition areColorsDistinguishable (colors : list string) : bool :=
  forallb (fun p =>
             match deltaE (fst p) (snd p) with
             | Some distance => negb (Qltb distance 10)
             | None => false
             end)
          (pairs colors).

Definition analyzeColorBlindnessCompliance (colors : list string) : ColorBlindness :=
  mkColorBlindness
    (areColorsDistinguishable (map simulateProtanopia colors))
    (areColorsDistinguishable (map simulateDeuteranopia colors))
    (areColorsDistinguishable (map simulateTritanopia colors)).

(** The [try] block of [analyzeAccessibility] once the colours are there *)
Definition analyzeDominantColors (colors : list string) : AccessibilityAnalysis :=
  let contrastChecks := performContrastChecks lib colors in
  let colorBlindnessAnalysis := analyzeColorBlindnessCompliance colors in
  let score := calculateAccessibilityScore contrastChecks colorBlindnessAnalysis in
  let issues := identifyAccessibilityIssues contrastChecks colorBlindnessAnalysis in
  let recommendations :=
    generateAccessibilityRecommendations contrastChecks colorBlindnessAnalysis in
  mkAccessibilityAnalysis score issues recommendations contrastChecks
                          colorBlindnessAnalysis.

Definition defaultAccessibility : AccessibilityAnalysis :=
  mkAccessibilityAnalysis 50
    ["Unable to perform detailed accessibility analysis"%string]
    ["Ensure sufficient color contrast and consider accessibility guidelines"%string]
    [] (mkColorBlindness false false false).

Definition analyzeAccessibility (imageBuffer : Buffer) : outcome AccessibilityAnalysis :=
  try_catch
    (image <- Jimp_read imageBuffer ;;
     Ret (analyzeDominantColors (extractDominantColors image)))
    (fun _ => Ret defaultAccessibility).

End WithLibraries.

(** *** Properties *)

Lemma rate_range {A : Type} (f : A -> bool) (l : list A) :
  l <> [] ->
  0 <= ofNat (List.length (filter f l)) / ofNat (List.length l) <= 1.
Proof.
  intros Hne.
  assert (Hn : 0 < ofNat (List.length l)).
  { destruct l; [contradiction|]. unfold ofNat, Qlt. cbn. lia. }
  assert (Hk : 0 <= ofNat (List.length (filter f l)) <= ofNat (List.length l)).
  { pose proof (filter_length_le f l) as H. unfold ofNat.
    split; unfold Qle; cbn; lia. }
  split.
  - apply Qle_shift_div_l; [exact Hn | Lqa.lra].
  - apply Qle_shift_div_r; [exact Hn | Lqa.lra].
Qed.

(** X19: the accessibility score lies between 0 and 80: the cap of 100 is
    never reached (25 + 15 + 30 + 10). *)
Theorem calculateAccessibilityScore_range (contrastChecks : list ContrastCheck)
  (cb : ColorBlindness) :
  (0 <= calculateAccessibilityScore contrastChecks cb <= 80)%Z.
Proof.
  rewrite calculateAccessibilityScore_sum.
  assert (H : 0 <= scoreSum contrastChecks cb <= 80).
  { unfold scoreSum.
    assert (Hp : forall b, 0 <= points b <= 10) by (intros []; split; discriminate).
    pose proof (Hp (protanopia_safe cb)). pose proof (Hp (deuteranopia_safe cb)).
    pose proof (Hp (tritanopia_safe cb)).
    assert (Hb : 0 <= bonus contrastChecks <= 10).
    { unfold bonus. destruct contrastChecks; [split; discriminate|].
      destruct (Qltb 10 _); [split; discriminate|].
      destruct (Qltb 7 _); split; discriminate. }
    assert (Hf : forall f, 0 <= pairFraction f contrastChecks <= 1).
    { intros f. unfold pairFraction. destruct contrastChecks as [|c rest];
        [split; discriminate|]. apply rate_range. discriminate. }
    pose proof (Hf passes_aa). pose proof (Hf passes_aaa).
    generalize dependent (pairFraction passes_aa contrastChecks).
    generalize dependent (pairFraction passes_aaa contrastChecks).
    generalize dependent (bonus contrastChecks).
    generalize dependent (points (protanopia_safe cb)).
    generalize dependent (points (deuteranopia_safe cb)).
    generalize dependent (points (tritanopia_safe cb)).
    intros. Lqa.lra. }
  destruct H as [H0 H80].
  assert (E : Qmin (scoreSum contrastChecks cb) 100 == scoreSum contrastChecks cb).
  { apply Q.min_l. Lqa.lra. }
  rewrite E.
  pose proof (Math_round_le _ _ H0) as L0. pose proof (Math_round_le _ _ H80) as L80.
  change (Math_round 0) with 0%Z in L0. change (Math_round 80) with 80%Z in L80.
  lia.
Qed.

Section Facts.

Variable lib : Chroma.
Variable Buffer : Type.
Variable Jimp_read : Buffer -> outcome Composition.Jimp.
Variable hexOfRGB : Z -> Z -> Z -> option string.
Variable labOf : string -> option (Q * Q * Q).
Variable hexOfLab : Q -> Q -> Q -> option string.
Variable deltaE : string -> string -> option Q.

Lemma pairs_indexed {A : Type} (l : list A) :
  forall (s n : nat) (i j : nat) (x y : A),
    In ((i, x), (j, y)) (pairs (combine (seq s n) l)) ->
    (s <= i < j)%nat /\ (j < s + n)%nat /\ In x l /\ In y l.
Proof.
  induction l as [|z rest IH]; intros s n i j x y Hin.
  - destruct n; destruct Hin.
  - destruct n as [|n]; [destruct Hin|].
    cbn [seq combine pairs] in Hin. apply in_app_iff in Hin.
    destruct Hin as [Hin | Hin].
    + apply in_map_iff in Hin. destruct Hin as ([j' y'] & E & Hc).
      inversion E; subst.
      pose proof (in_combine_l _ _ _ _ Hc) as Hj. apply in_seq in Hj.
      pose proof (in_combine_r _ _ _ _ Hc) as Hy.
      cbn. repeat split; auto; lia.
    + destruct (IH (S s) n i j x y Hin) as (? & ? & ? & ?).
      cbn. repeat split; auto; lia.
Qed.

(** X20: every contrast check is between two of the colours, at positions
    [i < j] counted from 1; its ratio is the contrast of the color
    analyzer, its flags are the ratio's comparison with 4.5 and 7; there
    are at most [n (n - 1) / 2] checks for [n] colours. *)
Theorem performContrastChecks_sound (colors : list string) :
  (2 * List.length (performContrastChecks lib colors)
   <= List.length colors * (List.length colors - 1))%nat /\
  forall check, In check (performContrastChecks lib colors) ->
    In (foreground check) colors /\ In (background check) colors /\
    (1 <= fst (location check) < snd (location check))%nat /\
    (snd (location check) <= List.length colors)%nat /\
    ratio check = Color.calculateContrast lib (foreground check) (background check) /\
    passes_aa check = Qleb (45 # 10) (ratio check) /\
    passes_aaa check = Qleb 7 (ratio check).
Proof.
  unfold performContrastChecks. split.
  - pose proof (Palette.length_pairs (combine (seq 0 (List.length colors)) colors)) as H.
    rewrite length_combine, length_seq, Nat.min_id in H. rewrite <- H.
    apply Nat.mul_le_mono_l. apply Palette.length_flat_map_le.
    intros [[i c1] [j c2]]. destruct (chroma_contrast_of lib c1 c2); cbn; lia.
  - intros check Hin. apply in_flat_map in Hin.
    destruct Hin as ([[i c1] [j c2]] & Hp & Hin).
    apply pairs_indexed in Hp. destruct Hp as (Hij & Hj & H1 & H2).
    unfold chroma_contrast_of in Hin. unfold Color.calculateContrast.
    destruct (chroma lib c1) as [x|] eqn:E1; [|destruct Hin].
    destruct (chroma lib c2) as [y|] eqn:E2; [|destruct Hin].
    destruct Hin as [<- | []]. cbn. rewrite E1, E2.
    repeat split; auto; lia.
Qed.

(** With fewer than two dominant colours there is nothing to compare: no
    contrast check, all three colour-blindness flags true, score 30, no
    issue, and the three general recommendations. *)
Lemma analyzeDominantColors_few (colors : list string) :
  (List.length colors <= 1)%nat ->
  analyzeDominantColors lib labOf hexOfLab deltaE colors
  = mkAccessibilityAnalysis 30 []
      ["Test your design with accessibility tools and screen readers"%string;
       "Ensure all interactive elements have sufficient size (minimum 44px touch target)"%string;
       "Use semantic HTML and proper heading hierarchy in implementation"%string]
      [] (mkColorBlindness true true true).
Proof.
  intros H. destruct colors as [|c [|c' rest]]; [reflexivity | reflexivity |].
  cbn in H. lia.
Qed.

(** X21: no issue is reported exactly when every check passes AA with a
    ratio of at least 2, at most half of the checks fail AAA, and the three
    colour-blindness flags are true. *)
Theorem identifyAccessibilityIssues_none (contrastChecks : list ContrastCheck)
  (cb : ColorBlindness) :
  identifyAccessibilityIssues contrastChecks cb = [] <->
  (forall check, In check contrastChecks ->
     passes_aa check = true /\ 2 <= ratio check) /\
  (2 * List.length (filter (fun check => negb (passes_aaa check)) contrastChecks)
   <= List.length contrastChecks)%nat /\
  protanopia_safe cb = true /\ deuteranopia_safe cb = true /\ tritanopia_safe cb = true.
Proof.
  unfold identifyAccessibilityIssues. cbv zeta.
  assert (Hposfilter : forall f : ContrastCheck -> bool,
            (0 <? List.length (filter f contrastChecks))%nat = false <->
            forall check, In check contrastChecks -> f check = false).
  { intros f. split.
    - intros H check Hin. destruct (f check) eqn:E; [|reflexivity].
      assert (In check (filter f contrastChecks)) as Hf by (apply filter_In; auto).
      destruct (filter f contrastChecks); [destruct Hf | discriminate].
    - intros H. rewrite Composition.filter_none by exact H. reflexivity. }
  assert (Hhalf : Qltb (ofNat (List.length contrastChecks) * (5 # 10))
                    (ofNat (List.length
                       (filter (fun check => negb (passes_aaa check)) contrastChecks)))
                  = false <->
                  (2 * List.length (filter (fun check => negb (passes_aaa check))
                                      contrastChecks)
                   <= List.length contrastChecks)%nat).
  { generalize (List.length (filter (fun check => negb (passes_aaa check)) contrastChecks)).
    generalize (List.length contrastChecks). intros n k.
    destruct (Qltb _ _) eqn:E.
    - apply Qltb_lt in E. unfold Qlt, ofNat in E. cbn in E. split; [discriminate | lia].
    - split; [|reflexivity]. intros _.
      assert (~ ofNat n * (5 # 10) < ofNat k) as N
        by (intros L; apply Qltb_lt in L; congruence).
      unfold Qlt, ofNat in N. cbn in N. lia. }
  split.
  - intros H.
    apply app_eq_nil in H. destruct H as [Iaa H].
    apply app_eq_nil in H. destruct H as [Iaaa H].
    apply app_eq_nil in H. destruct H as [Ip H].
    apply app_eq_nil in H. destruct H as [Id H].
    apply app_eq_nil in H. destruct H as [It Ilow].
    assert (Haa : forall check, In check contrastChecks -> negb (passes_aa check) = false).
    { apply Hposfilter.
      destruct (0 <? List.length (filter (fun check => negb (passes_aa check))
                                    contrastChecks))%nat;
        [discriminate Iaa | reflexivity]. }
    assert (Hlow : forall check, In check contrastChecks -> Qltb (ratio check) 2 = false).
    { destruct (0 <? List.length contrastChecks)%nat eqn:Hpos.
      - apply Hposfilter.
        destruct (0 <? List.length (filter (fun check => Qltb (ratio check) 2)
                                      contrastChecks))%nat;
          [discriminate Ilow | reflexivity].
      - destruct contrastChecks; [intros ? [] | discriminate Hpos]. }
    split; [|split; [|repeat split]].
    + intros check Hin. split.
      * specialize (Haa check Hin). now destruct (passes_aa check).
      * specialize (Hlow check Hin). apply Qnot_lt_le. intros L.
        apply Qltb_lt in L. congruence.
    + apply Hhalf. destruct (Qltb _ _); [discriminate Iaaa | reflexivity].
    + destruct (protanopia_safe cb); [reflexivity | discriminate Ip].
    + destruct (deuteranopia_safe cb); [reflexivity | discriminate Id].
    + destruct (tritanopia_safe cb); [reflexivity | discriminate It].
  - intros (Hall & Hh & -> & -> & ->). cbn [negb app].
    apply Hhalf in Hh. rewrite Hh. cbn [app].
    assert ((0 <? List.length (filter (fun check => negb (passes_aa check))
                                 contrastChecks))%nat = false) as ->.
    { apply Hposfilter. intros check Hin. destruct (Hall check Hin) as [-> _]. reflexivity. }
    assert ((0 <? List.length (filter (fun check => Qltb (ratio check) 2)
                                 contrastChecks))%nat = false) as ->.
    { apply Hposfilter. intros check Hin. destruct (Hall check Hin) as [_ Hr].
      destruct (Qltb (ratio check) 2) eqn:E; [|reflexivity].
      apply Qltb_lt in E. exfalso. Lqa.lra. }
    destruct (0 <? List.length contrastChecks)%nat; reflexivity.
Qed.

(** X22: when [Jimp.read] throws, the accessibility analyzer returns its
    degraded record (score 50, the three flags false); it never throws. *)
Theorem analyzeAccessibility_failure_policy (imageBuffer : Buffer) :
  (forall e, analyzeAccessibility lib Buffer Jimp_read hexOfRGB labOf hexOfLab deltaE
               imageBuffer <> Throw e) /\
  forall e, Jimp_read imageBuffer = Throw e ->
    analyzeAccessibility lib Buffer Jimp_read hexOfRGB labOf hexOfLab deltaE imageBuffer
    = Ret (mkAccessibilityAnalysis 50
             ["Unable to perform detailed accessibility analysis"%string]
             ["Ensure sufficient color contrast and consider accessibility guidelines"%string]
             [] (mkColorBlindness false false false)).
Proof.
  unfold analyzeAccessibility.
  destruct (Jimp_read imageBuffer) as [image|e0|]; cbn [bind try_catch];
    (split; [discriminate|]); intros e [=]; reflexivity.
Qed.

Lemma countPixel_NoDup (image : Composition.Jimp) (pts : list (Z * Z)) :
  forall colorMap, NoDup (map fst colorMap) ->
    NoDup (map fst (fold_left (countPixel hexOfRGB image) pts colorMap)).
Proof.
  induction pts as [|p rest IH]; intros colorMap H; [exact H|].
  cbn [fold_left]. apply IH. unfold countPixel. cbv zeta.
  destruct (128 <? _)%Z; [|exact H].
  destruct (hexOfRGB _ _ _); [now apply Tally.NoDup_keys_countColor | exact H].
Qed.

(** X23: at most ten dominant colours are extracted, no colour twice. *)
Theorem extractDominantColors_bounded (image : Composition.Jimp) :
  (List.length (extractDominantColors hexOfRGB image) <= 10)%nat /\
  NoDup (extractDominantColors hexOfRGB image).
Proof.
  unfold extractDominantColors. cbv zeta. split.
  - pose proof (Tally.length_mostFrequent 10
                  (fold_left (countPixel hexOfRGB image) (samplePoints image) [])) as H.
    lia.
  - apply Tally.NoDup_mostFrequent. apply countPixel_NoDup. constructor.
Qed.

Lemma stride_lt (len step i : nat) :
  (0 < step)%nat -> In i (Tally.stride len step) -> (i < len)%nat.
Proof.
  intros Hstep Hin. unfold Tally.stride in Hin. apply in_map_iff in Hin.
  destruct Hin as (k & <- & Hk). apply in_seq in Hk.
  pose proof (Nat.Div0.mul_div_le (len + step - 1) step) as H.
  nia.
Qed.

Lemma in_samplePoints (image : Composition.Jimp) (p : Z * Z) :
  In p (samplePoints image) ->
  (0 <= fst p < Composition.getWidth image)%Z /\
  (0 <= snd p < Composition.getHeight image)%Z.
Proof.
  unfold samplePoints. rewrite in_flat_map. intros (y & Hy & Hp).
  apply in_map_iff in Hp. destruct Hp as (x & <- & Hx).
  apply stride_lt in Hx, Hy; [|lia|lia]. cbn. lia.
Qed.

Lemma extractDominantColors_uniform (image : Composition.Jimp) (c : Composition.RGBA) :
  Composition.uniform image c ->
  (List.length (extractDominantColors hexOfRGB image) <= 1)%nat.
Proof.
  intros U. unfold extractDominantColors. cbv zeta.
  set (P := fun colorMap : list (string * Z) =>
              colorMap = [] \/
              exists color n, colorMap = [(color, n)] /\
                hexOfRGB (Composition.r c) (Composition.g c) (Composition.b c)
                = Some color).
  assert (Hstep : forall pts colorMap,
            (forall p, In p pts -> In p (samplePoints image)) -> P colorMap ->
            P (fold_left (countPixel hexOfRGB image) pts colorMap)).
  { intros pts. induction pts as [|p rest IH]; intros colorMap Hin HP; [exact HP|].
    cbn [fold_left]. apply IH; [intros; apply Hin; now right|].
    destruct (in_samplePoints image p (Hin p (or_introl eq_refl))) as [Hx Hy].
    unfold countPixel. cbv zeta. rewrite (U _ _ Hx Hy).
    destruct (128 <? Composition.a c)%Z; [|exact HP].
    destruct (hexOfRGB _ _ _) as [color|] eqn:E; [|exact HP].
    unfold P in HP |- *. right. destruct HP as [-> | (color' & n & -> & E')].
    - exists color, 1%Z. split; reflexivity.
    - assert (color' = color) as -> by congruence.
      exists color, (n + 1)%Z. split; [|reflexivity].
      unfold Tally.countColor. cbn. now rewrite String.eqb_refl. }
  pose proof (Hstep (samplePoints image) [] (fun p H => H) (or_introl eq_refl)) as HP.
  unfold P in HP. destruct HP as [-> | (color & n & -> & _)]; cbv; lia.
Qed.

(** X24: on a raster of one colour the accessibility analysis finds at most
    one dominant colour and returns score 30 with no issue, no contrast
    check and the three flags true. *)
Theorem analyzeAccessibility_uniform (imageBuffer : Buffer) (image : Composition.Jimp)
  (c : Composition.RGBA) :
  Jimp_read imageBuffer = Ret image -> Composition.uniform image c ->
  analyzeAccessibility lib Buffer Jimp_read hexOfRGB labOf hexOfLab deltaE imageBuffer
  = Ret (mkAccessibilityAnalysis 30 []
      ["Test your design with accessibility tools and screen readers"%string;
       "Ensure all interactive elements have sufficient size (minimum 44px touch target)"%string;
       "Use semantic HTML and proper heading hierarchy in implementation"%string]
      [] (mkColorBlindness true true true)).
Proof.
  intros Hread U. unfold analyzeAccessibility. rewrite Hread. cbn [bind try_catch].
  f_equal. apply analyzeDominantColors_few. now apply extractDominantColors_uniform with c.
Qed.

End Facts.

Definition noLab (color : string) : option (Q * Q * Q) := None.
Definition noHex (l a b : Q) : option string := None.
Definition noDeltaE (a b : string) : option Q := None.
Definition anyHex (r g b : Z) : option string := Some "#000000"%string.

Lemma analyzeAccessibility_uniform_witness :
  analyzeAccessibility Color.exampleChroma unit
    (fun _ => Ret (Composition.solid 50 30 Composition.exampleColor))
    anyHex noLab noHex noDeltaE tt
  = Ret (mkAccessibilityAnalysis 30 []
      ["Test your design with accessibility tools and screen readers"%string;
       "Ensure all interactive elements have sufficient size (minimum 44px touch target)"%string;
       "Use semantic HTML and proper heading hierarchy in implementation"%string]
      [] (mkColorBlindness true true true)).
Proof.
  apply (analyzeAccessibility_uniform Color.exampleChroma unit
           (fun _ => Ret (Composition.solid 50 30 Composition.exampleColor))
           anyHex noLab noHex noDeltaE tt
           (Composition.solid 50 30 Composition.exampleColor) Composition.exampleColor).
  - reflexivity.
  - intros x y _ _. reflexivity.
Defined.

Lemma analyzeAccessibility_failure_policy_witness :
  analyzeAccessibility Color.exampleChroma unit
    (fun _ => Throw (Error "Could not find MIME for Buffer"))
    anyHex noLab noHex noDeltaE tt
  = Ret defaultAccessibility.
Proof.
  apply (analyzeAccessibility_failure_policy Color.exampleChroma unit
           (fun _ => Throw (Error "Could not find MIME for Buffer"))
           anyHex noLab noHex noDeltaE tt)
    with (e := Error "Could not find MIME for Buffer").
  reflexivity.
Defined.

Example extractDominantColors_solid :
  extractDominantColors anyHex (Composition.solid 50 30 Composition.exampleColor)
  = ["#000000"%string] /\
  samplePoints (Composition.solid 50 30 Composition.exampleColor)
  = [(0, 0); (20, 0); (40, 0); (0, 20); (20, 20); (40, 20)]%Z.
Proof. split; reflexivity. Qed.

End AccessibilityFacts.

(** ** Further properties of the typography analyzer *)

From Stdlib Require Import Sorted.

Module TypographyFacts.

Import Typography.

Local Open Scope Q_scope.

(** *** The size progression *)

Definition taller (a b : TextRegion) : Prop := height b <= height a.

Lemma insertBy_height_sorted (a : TextRegion) (l : list TextRegion) :
  Sorted taller l -> Sorted taller (insertBy (fun a b => height b - height a) a l).
Proof.
  induction l as [|b rest IH]; intros Hs; cbn [insertBy].
  - repeat constructor.
  - destruct (Qleb (height b - height a) 0) eqn:E.
    + apply Qleb_le in E. constructor; [exact Hs|]. constructor.
      unfold taller. Lqa.lra.
    + assert (height a <= height b) as Hab.
      { apply Qlt_le_weak. apply Qnot_le_lt. intros L.
        assert (height b - height a <= 0) as L' by Lqa.lra.
        apply Qleb_le in L'. congruence. }
      inversion Hs as [|? ? Hrest Hhd]; subst.
      constructor; [now apply IH|].
      destruct rest as [|c rest']; cbn [insertBy].
      * constructor. exact Hab.
      * destruct (Qleb (height c - height a) 0); constructor;
          [exact Hab | now inversion Hhd].
Qed.

Lemma sortBy_height_sorted (l : list TextRegion) :
  Sorted taller (sortBy (fun a b => height b - height a) l).
Proof.
  induction l as [|a rest IH]; [constructor|].
  cbn [sortBy fold_right]. now apply insertBy_height_sorted.
Qed.

(** [Math.round(size / 2) * 2] *)
Definition bucket (size : Q) : Z := (Math_round (size / 2) * 2)%Z.

Lemma bucket_le (s t : Q) : s <= t -> (bucket s <= bucket t)%Z.
Proof.
  intros H. unfold bucket.
  assert (Math_round (s / 2) <= Math_round (t / 2))%Z; [|lia].
  apply Math_round_le. unfold Qdiv. apply Qmult_le_compat_r; [exact H | discriminate].
Qed.

Lemma buckets_sorted (l : list TextRegion) :
  Sorted taller l ->
  StronglySorted (fun a b => (b <= a)%Z) (map (fun r => bucket (height r)) l).
Proof.
  intros Hs. apply Sorted_StronglySorted; [intros a b c; lia|].
  induction Hs as [|a rest Hrest IH Hhd]; cbn [map]; constructor; [exact IH|].
  destruct Hhd as [|b rest' Hab]; cbn [map]; constructor.
  now apply bucket_le.
Qed.

Lemma existsb_eqb_In (z : Z) (seen : list Z) :
  existsb (Z.eqb z) seen = true <-> In z seen.
Proof.
  rewrite existsb_exists. split.
  - intros (x & Hx & E). apply Z.eqb_eq in E. now subst.
  - intros H. exists z. split; [exact H | apply Z.eqb_refl].
Qed.

Lemma unique_from_decreasing (l : list Z) :
  forall seen,
    StronglySorted (fun a b => (b <= a)%Z) l ->
    (forall s x, In s seen -> In x l -> (x <= s)%Z) ->
    StronglySorted (fun a b => (b < a)%Z) (unique_from seen l) /\
    forall x, In x (unique_from seen l) ->
      In x l /\ forall s, In s seen -> (x < s)%Z.
Proof.
  induction l as [|z rest IH]; intros seen Hs Hseen; cbn [unique_from].
  - split; [constructor | intros x []].
  - inversion Hs as [|? ? Hrest Hz]; subst.
    destruct (existsb (Z.eqb z) seen) eqn:E.
    + destruct (IH seen Hrest) as [Hsorted Hin].
      { intros s x Hs' Hx. apply Hseen; [exact Hs' | now right]. }
      split; [exact Hsorted|]. intros x Hx. destruct (Hin x Hx). split; [now right | auto].
    + assert (Hnot : ~ In z seen).
      { intros Hin. apply existsb_eqb_In in Hin. congruence. }
      destruct (IH (z :: seen) Hrest) as [Hsorted Hin].
      { intros s x [<- | Hs'] Hx.
        - rewrite Forall_forall in Hz. now apply Hz.
        - apply Hseen; [exact Hs' | now right]. }
      split.
      * constructor; [exact Hsorted|]. apply Forall_forall. intros x Hx.
        destruct (Hin x Hx) as [_ Hlt]. apply Hlt. now left.
      * intros x [<- | Hx].
        -- split; [now left|]. intros s Hs'.
           assert (z <= s)%Z by (apply Hseen; [exact Hs' | now left]).
           assert (z <> s) by (intros ->; contradiction). lia.
        -- destruct (Hin x Hx) as [Hxl Hlt]. split; [now right|].
           intros s Hs'. apply Hlt. now right.
Qed.

Lemma differences_even (l : list Z) :
  StronglySorted (fun a b => (b < a)%Z) l ->
  (forall x, In x l -> exists k, x = (k * 2)%Z) ->
  forallb (fun diff => (2 <=? diff)%Z) (differences l) = true.
Proof.
  induction l as [|a [|b rest] IH]; intros Hs Heven; [reflexivity | reflexivity |].
  inversion Hs as [|? ? Hrest Ha]; subst.
  change (differences (a :: b :: rest)) with ((a - b)%Z :: differences (b :: rest)).
  cbn [forallb]. rewrite IH; [|exact Hrest|intros; apply Heven; now right].
  rewrite andb_true_r. apply Z.leb_le.
  destruct (Heven a (or_introl eq_refl)) as [ka ->].
  destruct (Heven b (or_intror (or_introl eq_refl))) as [kb ->].
  rewrite Forall_forall in Ha. specialize (Ha _ (or_introl eq_refl)). lia.
Qed.

(** The distinct sizes of [analyzeHierarchy] always differ by 2 or more. *)
Lemma progression_always (textRegions : list TextRegion) :
  forallb (fun diff => (2 <=? diff)%Z)
    (differences
       (unique (map (fun size => (Math_round (size / 2) * 2)%Z)
                    (map height (sortBy (fun a b => height b - height a) textRegions)))))
  = true.
Proof.
  rewrite map_map.
  pose proof (buckets_sorted _ (sortBy_height_sorted textRegions)) as Hs.
  unfold bucket in Hs.
  destruct (unique_from_decreasing _ [] Hs) as [Hsorted Hin]; [intros s x []|].
  apply differences_even; [exact Hsorted|].
  intros x Hx. destruct (Hin x Hx) as [Hx' _].
  apply in_map_iff in Hx'. destruct Hx' as (r & <- & _). eexists. reflexivity.
Qed.

(** X25: the check of the size progression always succeeds: the distinct
    sizes are even numbers in descending order.  A non-empty list
    therefore scores at least 20, and the hierarchy score is one of 20, 40,
    50, 70, 80, 90, 100. *)
Theorem analyzeHierarchy_values (textRegions : list TextRegion) :
  textRegions <> [] ->
  In (analyzeHierarchy textRegions) [20; 40; 50; 70; 80; 90; 100]%Z.
Proof.
  intros Hne. unfold analyzeHierarchy.
  destruct textRegions as [|r0 rest]; [contradiction|].
  cbv zeta. rewrite progression_always.
  repeat match goal with
         | |- context [(?a <=? ?b)%nat] => destruct (Nat.leb_spec a b)
         end;
    try lia;
    destruct (Qltb _ _); cbn; tauto.
Qed.

Lemma analyzeHierarchy_values_witness :
  In (analyzeHierarchy [exampleRegion "Title" 0 40; exampleRegion "body" 100 12])
     [20; 40; 50; 70; 80; 90; 100]%Z.
Proof.
  apply analyzeHierarchy_values. discriminate.
Defined.

(** *** Ranges *)

Lemma analyzeReadability_range (textRegions : list TextRegion) :
  (0 <= analyzeReadability textRegions <= 100)%Z.
Proof.
  unfold analyzeReadability. destruct textRegions as [|r0 rest]; [lia|].
  cbv zeta.
  repeat match goal with
         | |- context [if ?b then _ else _] => destruct b
         end; lia.
Qed.

(** X26: the three typography measures stay in their ranges: the font
    count between 0 and 4, both scores between 0 and 100; on a non-empty
    list the font count is at least 1, also when no box is higher than 8
    pixels, and the hierarchy score at least 20. *)
Theorem analyzeTextRegions_ranges (textRegions : list TextRegion) :
  let result := analyzeTextRegions textRegions in
  (0 <= font_count result <= 4)%Z /\
  (0 <= hierarchy_score result <= 100)%Z /\
  (0 <= readability_score result <= 100)%Z /\
  (textRegions <> [] ->
   (1 <= font_count result)%Z /\ (20 <= hierarchy_score result)%Z).
Proof.
  cbv zeta. unfold analyzeTextRegions. cbv zeta.
  cbn [font_count hierarchy_score readability_score].
  assert (Hh : textRegions <> [] -> (20 <= analyzeHierarchy textRegions <= 100)%Z).
  { intros Hne. unfold analyzeHierarchy.
    destruct textRegions as [|r0 rest]; [contradiction|].
    cbv zeta. rewrite progression_always.
    repeat match goal with
           | |- context [if ?b then _ else _] => destruct b
           end; lia. }
  repeat split.
  - unfold estimateFontCount. destruct textRegions; lia.
  - unfold estimateFontCount. destruct textRegions; lia.
  - destruct textRegions as [|r0 rest]; [cbn; lia|].
    assert (r0 :: rest <> []) as Hne by discriminate. specialize (Hh Hne). lia.
  - destruct textRegions as [|r0 rest]; [cbn; lia|].
    assert (r0 :: rest <> []) as Hne by discriminate. specialize (Hh Hne). lia.
  - apply analyzeReadability_range.
  - apply analyzeReadability_range.
  - unfold estimateFontCount. destruct textRegions; [contradiction | lia].
  - now apply Hh.
Qed.

(** *** Text density of a single box *)

(** X27: a single text box fills its own bounding box: the density is 1, or
    [NaN] for a box without area, and earns no readability points, so one
    box never scores more than 75. *)
Theorem analyzeReadability_single (r : TextRegion) :
  less (calculateTextDensity [r]) (85 # 100) = false /\
  (analyzeReadability [r] <= 75)%Z.
Proof.
  assert (H85 : less (calculateTextDensity [r]) (85 # 100) = false).
  { unfold calculateTextDensity. cbv zeta.
    cbn [map Qsum fold_left Qmin_list Qmax_list]. unfold divide.
    destruct (Qeq_bool ((x r + width r - x r) * (y r + height r - y r)) 0) eqn:Eb.
    - apply Qeq_bool_iff in Eb.
      assert (Qeq_bool (0 + width r * height r) 0 = true) as ->; [|reflexivity].
      apply Qeq_bool_iff.
      setoid_replace (0 + width r * height r)
        with ((x r + width r - x r) * (y r + height r - y r)) by ring.
      exact Eb.
    - cbn [less]. apply Qeq_bool_neq in Eb.
      assert ((0 + width r * height r)
              / ((x r + width r - x r) * (y r + height r - y r)) == 1) as E
        by (field; split; intros Hz; apply Eb; rewrite Hz; ring).
      rewrite (Qltb_comp _ _ E _ _ (Qeq_refl (85 # 100))). reflexivity. }
  assert (H7 : less (calculateTextDensity [r]) (7 # 10) = false).
  { unfold calculateTextDensity in *. cbv zeta in *.
    cbn [map Qsum fold_left Qmin_list Qmax_list] in *. unfold divide in *.
    destruct (Qeq_bool ((x r + width r - x r) * (y r + height r - y r)) 0) eqn:Eb.
    - destruct (Qeq_bool (0 + width r * height r) 0); [reflexivity|].
      destruct (Qltb 0 (0 + width r * height r)); [reflexivity | discriminate H85].
    - cbn [less] in *. apply Qeq_bool_neq in Eb.
      assert ((0 + width r * height r)
              / ((x r + width r - x r) * (y r + height r - y r)) == 1) as E
        by (field; split; intros Hz; apply Eb; rewrite Hz; ring).
      rewrite (Qltb_comp _ _ E _ _ (Qeq_refl (7 # 10))). reflexivity. }
  split; [exact H85|].
  unfold analyzeReadability. cbv zeta. rewrite H7, H85.
  repeat match goal with
         | |- context [if ?b then _ else _] => destruct b
         end; lia.
Qed.

(** *** Text regions and the failure policy *)

(** X28: only words with a confidence above 30 become text regions, in
    their order, each with the size of its bounding box; without a word
    list there is none. *)
Theorem extractTextRegions_sound (ocrData : OcrData) :
  (List.length (extractTextRegions ocrData)
   <= match words ocrData with Some ws => List.length ws | None => 0 end)%nat /\
  forall region, In region (extractTextRegions ocrData) ->
    30 < confidence region /\
    exists ws word, words ocrData = Some ws /\ In word ws /\
      text region = word_text word /\
      confidence region = word_confidence word /\
      x region = x0 (bbox word) /\ y region = y0 (bbox word) /\
      width region = x1 (bbox word) - x0 (bbox word) /\
      height region = y1 (bbox word) - y0 (bbox word).
Proof.
  unfold extractTextRegions. destruct (words ocrData) as [ws|]; [|split; [cbn; lia | intros ? []]].
  split.
  - rewrite length_map. apply filter_length_le.
  - intros region Hin. apply in_map_iff in Hin. destruct Hin as (word & <- & Hw).
    apply filter_In in Hw. destruct Hw as [Hw Hc]. apply Qltb_lt in Hc.
    split; [exact Hc|]. exists ws, word. cbn. repeat split; auto.
Qed.

(** X29: when the recognition throws, the typography analyzer returns its
    degraded record (2 fonts, hierarchy 70, readability 75); when it finds
    no usable word, the scores are 0 and two issues are reported; it never
    throws. *)
Theorem analyzeTypography_policy {Buffer : Type} (recognize : Buffer -> outcome OcrData)
  (imageBuffer : Buffer) :
  (forall e, analyzeTypography recognize imageBuffer <> Throw e) /\
  (forall e, recognize imageBuffer = Throw e ->
     analyzeTypography recognize imageBuffer
     = Ret (mkTypographyAnalysis 2 70 75
              ["Unable to perform detailed typography analysis"%string] [])) /\
  (forall data, recognize imageBuffer = Ret data -> extractTextRegions data = [] ->
     analyzeTypography recognize imageBuffer
     = Ret (mkTypographyAnalysis 0 0 0
              ["Weak typographic hierarchy - consider creating clearer size distinctions"%string;
               "Text readability could be improved - check font size and contrast"%string]
              [])).
Proof.
  unfold analyzeTypography.
  destruct (recognize imageBuffer) as [data|e0|]; cbn [bind try_catch];
    (split; [discriminate|]); split.
  - intros e H. discriminate H.
  - intros d [= <-] Hregions. rewrite Hregions. reflexivity.
  - intros e _. reflexivity.
  - intros d H. discriminate H.
  - intros e H. discriminate H.
  - intros d H. discriminate H.
Qed.

Lemma analyzeTypography_policy_witness :
  analyzeTypography (fun _ : unit => Throw (Error "Error attempting to read image.")) tt
  = Ret (mkTypographyAnalysis 2 70 75
           ["Unable to perform detailed typography analysis"%string] []).
Proof.
  apply (analyzeTypography_policy
           (fun _ : unit => Throw (Error "Error attempting to read image.")) tt)
    with (e := Error "Error attempting to read image.").
  reflexivity.
Defined.

End TypographyFacts.

(** ** Further properties of the score aggregator *)

Module AggregatorFacts.

Import Aggregator.

Local Open Scope Q_scope.

(** X30: the weights sum to 1: four scores between 0 and 100 give an
    overall score between 0 and 100, and raising any of them never lowers
    it. *)
Theorem calculateOverallScore_range (scores scores' : Scores) :
  0 <= color_score scores <= color_score scores' -> color_score scores' <= 100 ->
  0 <= composition scores <= composition scores' -> composition scores' <= 100 ->
  0 <= typography scores <= typography scores' -> typography scores' <= 100 ->
  0 <= accessibility scores <= accessibility scores' -> accessibility scores' <= 100 ->
  exists overall overall',
    calculateOverallScore scores = Some overall /\
    calculateOverallScore scores' = Some overall' /\
    (0 <= overall <= overall')%Z /\ (overall' <= 100)%Z.
Proof.
  destruct scores as [c m t a], scores' as [c' m' t' a'].
  cbn [color_score composition typography accessibility].
  intros Hc Hc' Hm Hm' Ht Ht' Ha Ha'.
  unfold calculateOverallScore, entries.
  cbn [fold_left fst snd color_score composition typography accessibility].
  change (lookup "color" weights) with (Some (25 # 100)).
  change (lookup "composition" weights) with (Some (30 # 100)).
  change (lookup "typography" weights) with (Some (25 # 100)).
  change (lookup "accessibility" weights) with (Some (20 # 100)).
  cbv iota beta. eexists. eexists. split; [reflexivity|]. split; [reflexivity|].
  set (total := 0 + c * (25 # 100) + m * (30 # 100) + t * (25 # 100) + a * (20 # 100)).
  set (total' := 0 + c' * (25 # 100) + m' * (30 # 100) + t' * (25 # 100)
                 + a' * (20 # 100)).
  assert (H0 : 0 <= total) by (unfold total; Lqa.lra).
  assert (H1 : total <= total') by (unfold total, total'; Lqa.lra).
  assert (H2 : total' <= 100) by (unfold total'; Lqa.lra).
  apply Math_round_le in H0, H1, H2.
  change (Math_round 0) with 0%Z in H0. change (Math_round 100) with 100%Z in H2.
  lia.
Qed.

Lemma calculateOverallScore_range_witness :
  exists overall overall',
    calculateOverallScore (mkScores 60 50 0 30) = Some overall /\
    calculateOverallScore (mkScores 90 73 50 80) = Some overall' /\
    (0 <= overall <= overall')%Z /\ (overall' <= 100)%Z.
Proof.
  apply (calculateOverallScore_range (mkScores 60 50 0 30) (mkScores 90 73 50 80));
    cbn; try split; discriminate.
Defined.

End AggregatorFacts.
